(** * LangHire: skill matcher and scoring engine

    A shallow embedding of [src/analyzer/skill_matcher.py] and
    [src/analyzer/scoring_engine.py] (with the two thresholds of
    [config.py]) and the properties the specification states about them.

    Conventions of the embedding.
    - A Python [str] is a [string]; the functions that scan a text work on
      its characters ([list ascii]).  Texts are ASCII: [lower], the regex
      classes [\w], [\d], [\s] and the word boundary [\b] are the ASCII ones.
    - A Python number ([int] or [float]) that takes part in score
      arithmetic is an exact rational ([Q]); [round(x, 2)] is rounding to
      two decimals, ties to even.  Counts and years are integers.
    - A [dict] whose iteration order is observable (the taxonomy, the
      synonym table, a JSON object) is an association list in insertion
      order; a [dict] that is only looked up, or a [set], is a [gmap] or a
      [gset].
    - The JSON-shaped arguments of the scoring entry points are values of
      the type [value]; an operation Python refuses on a value raises, and
      exceptions are threaded through an error monad. *)

From Stdlib Require Import QArith Qround Qminmax Lqa Lia ZArith Ascii.
From Stdlib Require String.
From stdpp Require Import base option list gmap sets strings.

Set Default Proof Using "Type".
Set Warnings "-register-all,-clear-no-such-hyp".

(** ** Characters and texts *)

Module PyStr.

Definition text := list ascii.

Definition chars (s : string) : text := String.list_ascii_of_string s.
Definition of_chars (t : text) : string := String.string_of_list_ascii t.

Definition code (c : ascii) : nat := nat_of_ascii c.

Definition in_range (lo hi : nat) (c : ascii) : bool :=
  (lo <=? code c) && (code c <=? hi).

Definition is_upper : ascii -> bool := in_range 65 90.
Definition is_lower : ascii -> bool := in_range 97 122.
Definition is_digit : ascii -> bool := in_range 48 57.

(** [\w]: letters, digits and the underscore. *)
Definition is_word (c : ascii) : bool :=
  is_upper c || is_lower c || is_digit c || (code c =? 95).

(** [\s] and [str.isspace]: tab, newline, vertical tab, form feed,
    carriage return, the four separators 28..31 and the blank. *)
Definition is_space (c : ascii) : bool :=
  in_range 9 13 c || in_range 28 31 c || (code c =? 32).

(** Punctuation marks: the printable characters that are neither blank,
    nor letters, nor digits, nor the underscore (which [\w] counts as a
    word constituent). *)
Definition is_punct (c : ascii) : bool :=
  in_range 33 47 c || in_range 58 64 c || in_range 91 94 c
  || (code c =? 96) || in_range 123 126 c.

Definition lower_char (c : ascii) : ascii :=
  if is_upper c then ascii_of_nat (code c + 32) else c.

(** [str.lower] *)
Definition lower (t : text) : text := map lower_char t.

(** [needle in hay] for two strings. *)
Fixpoint starts_with (needle hay : text) : bool :=
  match needle, hay with
  | [], _ => true
  | _ :: _, [] => false
  | a :: n', b :: h' => Ascii.eqb a b && starts_with n' h'
  end.

Fixpoint contains (needle hay : text) : bool :=
  starts_with needle hay ||
  match hay with
  | [] => false
  | _ :: h' => contains needle h'
  end.

(** [str.isdigit] *)
Definition isdigit (t : text) : bool :=
  match t with
  | [] => false
  | _ => forallb is_digit t
  end.

Definition digit_val (c : ascii) : Z := Z.of_nat (code c - 48).

(** [int(s)] for a string of decimal digits; [None] is a [ValueError]. *)
Definition py_int (t : text) : option Z :=
  if isdigit t
  then Some (fold_left (fun acc c => 10 * acc + digit_val c)%Z t 0%Z)
  else None.

(** A count as a number of score arithmetic ([int] to [float]). *)
Definition Qnat (n : nat) : Q := inject_Z (Z.of_nat n).

End PyStr.

(** ** The fragment of [re] the program uses *)

Module Regex.
Import PyStr.

Inductive cclass :=
| CLit (c : ascii)   (* an escaped or ordinary literal character *)
| CDigit             (* \d *)
| CSpace.            (* \s *)

Definition cls (k : cclass) (a : ascii) : bool :=
  match k with
  | CLit c => Ascii.eqb c a
  | CDigit => is_digit a
  | CSpace => is_space a
  end.

(** A pattern is a sequence of nodes; a quantifier applies to one
    character class, and groups ([Open] ... [Close]) are not nested. *)
Inductive node :=
| One (k : cclass)
| Opt (k : cclass)     (* k?  greedy *)
| Star (k : cclass)    (* k*  greedy *)
| WordB                (* \b *)
| Open
| Close.

Definition regex := list node.

Definition plus (k : cclass) : regex := [One k; Star k].
Definition times (n : nat) (k : cclass) : regex := repeat (One k) n.
Definition lit (s : string) : regex := map (fun c => One (CLit c)) (chars s).

(** [re.escape]: every character of the argument stands for itself. *)
Definition escape (t : text) : regex := map (fun c => One (CLit c)) t.

Definition word_before (prev : option ascii) : bool :=
  match prev with Some c => is_word c | None => false end.
Definition word_after (s : text) : bool :=
  match s with c :: _ => is_word c | [] => false end.

(** [\b] holds between [prev] and the rest [s] when exactly one side is a
    word character; the two ends of the text count as non-word. *)
Definition at_boundary (prev : option ascii) (s : text) : bool :=
  negb (Bool.eqb (word_before prev) (word_after s)).

(** The outcome of a match attempt: the end position and the positions of
    the group marks, most recent first. *)
Definition outcome := (nat * list nat)%type.

Fixpoint star_greedy (ok : ascii -> bool)
    (k : nat -> option ascii -> text -> option outcome)
    (pos : nat) (prev : option ascii) (s : text) : option outcome :=
  match s with
  | a :: s' =>
      if ok a then
        match star_greedy ok k (S pos) (Some a) s' with
        | Some r => Some r
        | None => k pos prev s
        end
      else k pos prev s
  | [] => k pos prev s
  end.

(** Backtracking match of [p] at position [pos], [prev] being the
    character before it and [s] the text from it on. *)
Fixpoint match_here (p : regex) (marks : list nat)
    (pos : nat) (prev : option ascii) (s : text) : option outcome :=
  match p with
  | [] => Some (pos, marks)
  | One k :: p' =>
      match s with
      | a :: s' => if cls k a then match_here p' marks (S pos) (Some a) s' else None
      | [] => None
      end
  | Opt k :: p' =>
      match s with
      | a :: s' =>
          if cls k a then
            match match_here p' marks (S pos) (Some a) s' with
            | Some r => Some r
            | None => match_here p' marks pos prev s
            end
          else match_here p' marks pos prev s
      | [] => match_here p' marks pos prev s
      end
  | Star k :: p' => star_greedy (cls k) (match_here p' marks) pos prev s
  | WordB :: p' =>
      if at_boundary prev s then match_here p' marks pos prev s else None
  | Open :: p' => match_here p' (pos :: marks) pos prev s
  | Close :: p' => match_here p' (pos :: marks) pos prev s
  end.

(** [re.search]: the leftmost position at which the pattern matches. *)
Fixpoint search_from (p : regex) (pos : nat) (prev : option ascii) (s : text)
    : option (nat * outcome) :=
  match match_here p [] pos prev s with
  | Some r => Some (pos, r)
  | None =>
      match s with
      | a :: s' => search_from p (S pos) (Some a) s'
      | [] => None
      end
  end.

Definition search (p : regex) (t : text) : option (nat * outcome) :=
  search_from p 0 None t.

(** What [re.findall] yields for one match: the group itself when the
    pattern has one group (or the whole match when it has none), a tuple
    of the groups otherwise. *)
Inductive found :=
| FStr (s : text)
| FTuple (gs : list text).

Definition slice (t : text) (i j : nat) : text := take (j - i) (drop i t).

Fixpoint groups_of (t : text) (marks : list nat) : list text :=
  match marks with
  | i :: j :: rest => slice t i j :: groups_of t rest
  | _ => []
  end.

Definition item_of (t : text) (start : nat) (r : outcome) : found :=
  match groups_of t (rev (snd r)) with
  | [] => FStr (slice t start (fst r))
  | [g] => FStr g
  | gs => FTuple gs
  end.

(** [re.findall]: the matches from left to right, each search resuming
    where the previous match ended ([skip] counts the characters of the
    previous match still to pass). *)
Fixpoint findall_from (p : regex) (whole : text) (skip pos : nat)
    (prev : option ascii) (s : text) : list found :=
  match skip with
  | S skip' =>
      match s with
      | a :: s' => findall_from p whole skip' (S pos) (Some a) s'
      | [] => []
      end
  | O =>
      match match_here p [] pos prev s with
      | Some r =>
          item_of whole pos r ::
          match s with
          | a :: s' => findall_from p whole (fst r - pos - 1) (S pos) (Some a) s'
          | [] => []
          end
      | None =>
          match s with
          | a :: s' => findall_from p whole 0 (S pos) (Some a) s'
          | [] => []
          end
      end
  end.

Definition findall (p : regex) (t : text) : list found :=
  findall_from p t 0 0 None t.

End Regex.

(** ** [re.sub] with groups, alternatives and anchors *)

Module Sub.
Import PyStr.

(** The character sets of the patterns of [normalize_skill]. *)
Inductive cset :=
| SLit (c : ascii)    (* a literal character *)
| SDigit              (* \d *)
| SSpace              (* \s *)
| SNot (c : ascii).   (* [^c] *)

Definition in_cset (k : cset) (a : ascii) : bool :=
  match k with
  | SLit c => Ascii.eqb c a
  | SDigit => is_digit a
  | SSpace => is_space a
  | SNot c => negb (Ascii.eqb c a)
  end.

(** Patterns.  A group captures nothing the program uses (the replacement
    is the empty string), so it is the pattern inside it; a starred or
    plussed item is always one character set. *)
Inductive rx :=
| RSet (k : cset)
| RMany (k : cset)       (* k*  greedy *)
| RSeq (r1 r2 : rx)
| RAlt (r1 r2 : rx)      (* r1|r2, the left one first *)
| REmpty
| RBol                   (* ^ *)
| REol.                  (* $ *)

Definition rx_opt (r : rx) : rx := RAlt r REmpty.   (* r?  greedy *)
Definition rx_plus (k : cset) : rx := RSeq (RSet k) (RMany k).
Definition rx_word (w : string) : rx :=
  foldr (fun c r => RSeq (RSet (SLit c)) r) REmpty (chars w).

(** [$] without [re.MULTILINE]: the end of the string, or the place before
    a newline that ends the string. *)
Definition at_eol (s : text) : bool :=
  match s with
  | [] => true
  | [c] => code c =? 10
  | _ => false
  end.

(** [k*] at position [pos] of the subject, [s] being the text from there
    on: as many characters as possible, one less on each failure of what
    follows. *)
Fixpoint rx_many {A} (k : cset) (pos : nat) (s : text)
    (cont : nat -> text -> option A) : option A :=
  match s with
  | a :: s' =>
      if in_cset k a
      then match rx_many k (S pos) s' cont with
           | Some e => Some e
           | None => cont pos s
           end
      else cont pos s
  | [] => cont pos s
  end.

(** The backtracking matcher: [cont] is what follows the pattern. *)
Fixpoint rx_match {A} (r : rx) (pos : nat) (s : text)
    (cont : nat -> text -> option A) : option A :=
  match r with
  | RSet k =>
      match s with
      | a :: s' => if in_cset k a then cont (S pos) s' else None
      | [] => None
      end
  | RMany k => rx_many k pos s cont
  | RSeq r1 r2 => rx_match r1 pos s (fun pos' s' => rx_match r2 pos' s' cont)
  | RAlt r1 r2 =>
      match rx_match r1 pos s cont with
      | Some e => Some e
      | None => rx_match r2 pos s cont
      end
  | REmpty => cont pos s
  | RBol => if pos =? 0 then cont pos s else None
  | REol => if at_eol s then cont pos s else None
  end.

(** The end of the match of [r] that starts at [pos], if there is one. *)
Definition match_at (r : rx) (pos : nat) (s : text) : option nat :=
  rx_match r pos s (fun e _ => Some e).

(** [re.sub(r, '', subject)], [s] being the subject from [pos] on and
    [skip] the number of characters of [s] that belong to the match being
    deleted.  The subject is scanned from left to right; a match that
    starts at [pos] and is not empty is deleted and the scan goes on at its
    end.  An empty match is replaced by the empty string, which changes
    nothing. *)
Fixpoint sub_from (r : rx) (pos skip : nat) (s : text) : text :=
  match skip with
  | S skip' =>
      match s with
      | [] => []
      | _ :: s' => sub_from r (S pos) skip' s'
      end
  | 0 =>
      match s with
      | [] => []
      | a :: s' =>
          match match_at r pos s with
          | Some e =>
              if pos <? e then sub_from r (S pos) (e - pos - 1) s'
              else a :: sub_from r (S pos) 0 s'
          | None => a :: sub_from r (S pos) 0 s'
          end
      end
  end.

Definition sub (r : rx) (subject : text) : text := sub_from r 0 0 subject.

(** [str.strip] *)
Fixpoint lstrip (t : text) : text :=
  match t with
  | a :: t' => if is_space a then lstrip t' else t
  | [] => []
  end.

Definition rstrip (t : text) : text := reverse (lstrip (reverse t)).

Definition strip (t : text) : text := rstrip (lstrip t).

End Sub.

(** ** [SkillMatcher] *)

Module SkillMatcher.
Import PyStr Regex.

(** [_load_skill_categories] *)
Definition skill_categories : list (string * list string) :=
  [ ("programming_languages",
      ["python"; "java"; "javascript"; "typescript"; "c++"; "c#"; "go";
       "rust"; "swift"; "kotlin"; "scala"; "ruby"; "php"; "r"; "matlab"]);
    ("web_technologies",
      ["html"; "css"; "react"; "angular"; "vue"; "node.js"; "express";
       "django"; "flask"; "spring"; "asp.net"; "laravel"; "rails"]);
    ("databases",
      ["mysql"; "postgresql"; "mongodb"; "redis"; "elasticsearch";
       "oracle"; "sql server"; "sqlite"; "cassandra"; "dynamodb"]);
    ("cloud_platforms",
      ["aws"; "azure"; "gcp"; "google cloud"; "docker"; "kubernetes";
       "terraform"; "ansible"; "jenkins"; "gitlab"; "github actions"]);
    ("data_science",
      ["pandas"; "numpy"; "scikit-learn"; "tensorflow"; "pytorch";
       "spark"; "hadoop"; "tableau"; "power bi"; "jupyter"]);
    ("soft_skills",
      ["leadership"; "communication"; "problem solving"; "teamwork";
       "project management"; "analytical thinking"; "creativity"]) ].

(** [_load_skill_synonyms] *)
Definition skill_synonyms : list (string * list string) :=
  [ ("javascript", ["js"; "node"; "nodejs"; "node.js"]);
    ("typescript", ["ts"]);
    ("python", ["py"]);
    ("postgresql", ["postgres"; "psql"]);
    ("mongodb", ["mongo"]);
    ("kubernetes", ["k8s"]);
    ("amazon web services", ["aws"]);
    ("google cloud platform", ["gcp"; "google cloud"]);
    ("microsoft azure", ["azure"]);
    ("machine learning", ["ml"; "artificial intelligence"; "ai"]);
    ("deep learning", ["dl"; "neural networks"]);
    ("natural language processing", ["nlp"]);
    ("computer vision", ["cv"]);
    ("user interface", ["ui"]);
    ("user experience", ["ux"]);
    ("application programming interface", ["api"; "rest api"; "restful"]);
    ("structured query language", ["sql"]);
    ("nosql", ["no-sql"; "document database"]);
    ("continuous integration", ["ci"; "ci/cd"]);
    ("continuous deployment", ["cd"]);
    ("test driven development", ["tdd"]);
    ("behavior driven development", ["bdd"]);
    ("object oriented programming", ["oop"]);
    ("functional programming", ["fp"]) ].

(** The categories of the taxonomy that list [skill], in table order. *)
Definition categories_of (skill : string) : list string :=
  map fst (filter (fun cs => bool_decide (skill ∈ snd cs)) skill_categories).

(** The pattern [r'\b' + re.escape(skill.lower()) + r'\b']. *)
Definition skill_pattern (skill : string) : regex :=
  WordB :: escape (lower (chars skill)) ++ [WordB].

(** [_skill_mentioned] *)
Definition _skill_mentioned (skill : string) (t : text) : bool :=
  bool_decide (is_Some (search (skill_pattern skill) t)).

(** A category-to-skills dictionary, as [extract_skills_from_text] returns
    it and [calculate_skill_match_score] receives it. *)
Abbreviation skill_map := (gmap string (list string)).

(** [found_skills[category]] on the [defaultdict(list)]. *)
Definition found_in (fs : skill_map) (category : string) : list string :=
  default [] (fs !! category).

(** [found_skills[category].append(skill)] *)
Definition found_append (category skill : string) (fs : skill_map) : skill_map :=
  <[category := found_in fs category ++ [skill]]> fs.

(** The first loop: every canonical skill of every category. *)
Definition check_category (t : text) (fs : skill_map)
    (cs : string * list string) : skill_map :=
  foldl (fun fs skill =>
           if _skill_mentioned skill t then found_append (fst cs) skill fs
           else fs)
        fs (snd cs).

(** The inner search of the second loop: the first category that lists
    [main_skill] receives it, unless it is recorded there already. *)
Fixpoint record_main (main_skill : string) (cats : list (string * list string))
    (fs : skill_map) : skill_map :=
  match cats with
  | [] => fs
  | (category, skills) :: rest =>
      if bool_decide (main_skill ∈ skills) then
        if bool_decide (main_skill ∈ found_in fs category) then fs
        else found_append category main_skill fs
      else record_main main_skill rest fs
  end.

(** The second loop: every alternate form of every synonym entry. *)
Definition check_synonyms (t : text) (fs : skill_map)
    (ms : string * list string) : skill_map :=
  foldl (fun fs synonym =>
           if _skill_mentioned synonym t
           then record_main (fst ms) skill_categories fs
           else fs)
        fs (snd ms).

(** [extract_skills_from_text] *)
Definition extract_skills_from_text (txt : string) : skill_map :=
  let text_lower := lower (chars txt) in
  let found_skills := foldl (check_category text_lower) ∅ skill_categories in
  foldl (check_synonyms text_lower) found_skills skill_synonyms.

(** *** [calculate_skill_match_score] *)

Record match_result := MatchResult {
  exact_matches : gmap string (gset string);
  partial_matches : gmap string (gset string);
  missing_skills : gmap string (gset string);
  category_scores : gmap string Q;
  overall_score : Q;
  total_required : nat;
  total_matched : nat
}.

Definition match_init : match_result :=
  MatchResult ∅ ∅ ∅ ∅ 0 0 0.

(** [set(skills.get(category, []))] *)
Definition skills_at (skills : skill_map) (category : string) : gset string :=
  list_to_set (default [] (skills !! category)).

(** One turn of the loop over the categories. *)
Definition match_category (candidate_skills required_skills : skill_map)
    (st : match_result) (category : string) : match_result :=
  let candidate_cat_skills := skills_at candidate_skills category in
  let required_cat_skills := skills_at required_skills category in
  if decide (required_cat_skills = ∅) then st  (* continue *)
  else
    let exact := candidate_cat_skills ∩ required_cat_skills in
    let missing := required_cat_skills ∖ candidate_cat_skills in
    let st1 :=
      MatchResult (<[category := exact]> (exact_matches st))
                  (partial_matches st)
                  (<[category := missing]> (missing_skills st))
                  (category_scores st) (overall_score st)
                  (total_required st) (total_matched st) in
    if decide (required_cat_skills = ∅) then st1
    else
      let category_score :=
        (Qnat (size exact) / Qnat (size required_cat_skills) * 100)%Q in
      MatchResult (exact_matches st1) (partial_matches st1) (missing_skills st1)
                  (<[category := category_score]> (category_scores st1))
                  (overall_score st1)
                  (total_required st1 + size required_cat_skills)
                  (total_matched st1 + size exact).

(** [set(list(candidate_skills.keys()) + list(required_skills.keys()))] *)
Definition all_categories (candidate_skills required_skills : skill_map)
    : gset string :=
  dom candidate_skills ∪ dom required_skills.

Definition calculate_skill_match_score
    (candidate_skills required_skills : skill_map) : match_result :=
  let st := foldl (match_category candidate_skills required_skills) match_init
                  (elements (all_categories candidate_skills required_skills)) in
  let overall :=
    if (0 <? total_required st)%nat
    then (Qnat (total_matched st) / Qnat (total_required st) * 100)%Q
    else 0%Q in
  MatchResult (exact_matches st) (partial_matches st) (missing_skills st)
              (category_scores st) overall
              (total_required st) (total_matched st).

(** *** [get_skill_recommendations] *)

(** The suggestions for one category. *)
Definition category_recommendations (category : string) : list string :=
  if String.eqb category "programming_languages" then
    ["Consider online coding bootcamps or courses";
     "Practice with coding challenges on platforms like LeetCode or HackerRank";
     "Build personal projects to demonstrate proficiency"]
  else if String.eqb category "web_technologies" then
    ["Complete framework-specific tutorials and documentation";
     "Build full-stack web applications";
     "Contribute to open-source projects"]
  else if String.eqb category "cloud_platforms" then
    ["Obtain cloud certifications (AWS, Azure, GCP)";
     "Practice with free tier cloud services";
     "Deploy personal projects to cloud platforms"]
  else if String.eqb category "data_science" then
    ["Complete data science courses or bootcamps";
     "Work on Kaggle competitions";
     "Build and showcase data analysis projects"]
  else
    ["Develop " +:+ category +:+ " skills through relevant courses and practice"].

(** One turn of the loop over [missing_skills.items()]. *)
Definition recommend (recommendations : gmap string (list string))
    (item : string * list string) : gmap string (list string) :=
  match snd item with
  | [] => recommendations  (* continue *)
  | _ :: _ => <[fst item := category_recommendations (fst item)]> recommendations
  end.

Definition get_skill_recommendations (missing_skills : gmap string (list string))
    : gmap string (list string) :=
  foldl recommend ∅ (map_to_list missing_skills).

(** *** [analyze_skill_depth] *)

Definition experience_indicators : list (string * list string) :=
  [ ("expert", ["expert"; "lead"; "senior"; "architect"; "advanced";
                "10+ years"; "extensive"]);
    ("proficient", ["proficient"; "experienced"; "solid"; "strong";
                    "5+ years"; "commercial"]);
    ("intermediate", ["intermediate"; "working knowledge"; "familiar";
                      "some experience"; "2+ years"]);
    ("beginner", ["basic"; "beginner"; "learning"; "exposure";
                  "introduction"; "started"]) ].

(** [hay.find(needle)]: the lowest index at which [needle] occurs, [None]
    standing for -1. *)
Fixpoint find_from (needle hay : text) (pos : nat) : option nat :=
  if starts_with needle hay then Some pos
  else match hay with
       | [] => None
       | _ :: hay' => find_from needle hay' (S pos)
       end.

Definition find_sub (needle hay : text) : option nat := find_from needle hay 0.

(** [text_lower[max(0, skill_pos - 50) : skill_pos + 50]] *)
Definition surrounding_text (text_lower : text) (skill_pos : nat) : text :=
  take (skill_pos + 50 - (skill_pos - 50)) (drop (skill_pos - 50) text_lower).

(** The first level one of whose indicators occurs in the surrounding
    text: the two loops with their [break]s. *)
Definition level_in (surrounding : text) : option string :=
  match List.find
          (fun li => existsb (fun indicator => contains (chars indicator) surrounding)
                             (snd li))
          experience_indicators with
  | Some li => Some (fst li)
  | None => None
  end.

(** The depth the loop body assigns to one skill. *)
Definition depth_of_skill (text_lower : text) (skill : string) : string :=
  let skill_lower := lower (chars skill) in
  match find_sub skill_lower text_lower with
  | None => "mentioned"
  | Some skill_pos =>
      match level_in (surrounding_text text_lower skill_pos) with
      | Some level => level
      | None => "mentioned"
      end
  end.

Definition analyze_skill_depth (txt : string) (skills : list string)
    : gmap string string :=
  let text_lower := lower (chars txt) in
  foldl (fun skill_depth skill =>
           <[skill := depth_of_skill text_lower skill]> skill_depth)
        ∅ skills.

(** *** [normalize_skill] *)

Import Sub.

(** [(^(expert|advanced|proficient|experienced)\s+)] *)
Definition level_prefix : rx :=
  RSeq RBol
    (RSeq (RAlt (rx_word "expert")
            (RAlt (rx_word "advanced")
              (RAlt (rx_word "proficient") (rx_word "experienced"))))
          (rx_plus SSpace)).

(** [(\s+(experience|skills?)$)] *)
Definition experience_suffix : rx :=
  RSeq (rx_plus SSpace)
    (RSeq (RAlt (rx_word "experience")
                (RSeq (rx_word "skill") (rx_opt (RSet (SLit "s")))))
          REol).

(** [\s*\([^)]*\)] *)
Definition parenthesised : rx :=
  RSeq (RMany SSpace)
    (RSeq (RSet (SLit "("))
      (RSeq (RMany (SNot ")")) (RSet (SLit ")")))).

(** [\s+\d+(\.\d+)?(\+)?$] *)
Definition version_suffix : rx :=
  RSeq (rx_plus SSpace)
    (RSeq (rx_plus SDigit)
      (RSeq (rx_opt (RSeq (RSet (SLit ".")) (rx_plus SDigit)))
        (RSeq (rx_opt (RSet (SLit "+"))) REol))).

Definition normalize_skill (skill : string) : string :=
  let skill := strip (lower (chars skill)) in
  let skill := sub level_prefix skill in
  let skill := sub experience_suffix skill in
  let skill := sub parenthesised skill in
  let skill := sub version_suffix skill in
  of_chars (strip skill).

End SkillMatcher.

(** ** Python values, exceptions and the [try] block *)

Module Py.
Import PyStr.

(** The values a JSON-shaped argument can hold. *)
Inductive value :=
| VNone
| VBool (b : bool)
| VInt (z : Z)
| VFloat (q : Q)
| VStr (s : string)
| VList (l : list value)
| VDict (d : list (string * value)).

Definition type_name (v : value) : string :=
  match v with
  | VNone => "NoneType"
  | VBool _ => "bool"
  | VInt _ => "int"
  | VFloat _ => "float"
  | VStr _ => "str"
  | VList _ => "list"
  | VDict _ => "dict"
  end.

Inductive exn :=
| AttributeError (msg : string)
| TypeError (msg : string)
| ValueError (msg : string).

(** [str(e)] *)
Definition exn_msg (e : exn) : string :=
  match e with
  | AttributeError m | TypeError m | ValueError m => m
  end.

(** A computation that returns or raises. *)
Definition result (A : Type) : Type := exn + A.

#[export] Instance result_ret : MRet result := fun A x => inr x.
#[export] Instance result_bind : MBind result := fun A B f m =>
  match m with
  | inl e => inl e
  | inr a => f a
  end.

Definition raise {A} (e : exn) : result A := inl e.

Fixpoint assoc (key : string) (d : list (string * value)) : option value :=
  match d with
  | [] => None
  | (k, v) :: d' => if String.eqb key k then Some v else assoc key d'
  end.

Definition no_attribute (v : value) (attr : string) : exn :=
  AttributeError ("'" +:+ type_name v +:+ "' object has no attribute '" +:+ attr +:+ "'").

(** [d.get(key, dflt)] *)
Definition py_get (d : value) (key : string) (dflt : value) : result value :=
  match d with
  | VDict kvs => mret (default dflt (assoc key kvs))
  | _ => raise (no_attribute d "get")
  end.

(** [d.values()] *)
Definition py_values (d : value) : result (list value) :=
  match d with
  | VDict kvs => mret (map snd kvs)
  | _ => raise (no_attribute d "values")
  end.

(** [len(v)] *)
Definition py_len (v : value) : result nat :=
  match v with
  | VStr s => mret (length (chars s))
  | VList l => mret (length l)
  | VDict d => mret (length d)
  | _ => raise (TypeError ("object of type '" +:+ type_name v +:+ "' has no len()"))
  end.

(** The number a value stands for in arithmetic and comparisons. *)
Definition as_number (v : value) : option Q :=
  match v with
  | VBool b => Some (if b then 1%Q else 0%Q)
  | VInt z => Some (inject_Z z)
  | VFloat q => Some q
  | _ => None
  end.

(** [min(v, 100)]: [100 < v] is evaluated, and [v] kept unless it holds. *)
Definition py_min_100 (v : value) : result Q :=
  match as_number v with
  | Some q => mret (if Qlt_le_dec 100 q then 100%Q else q)
  | None =>
      raise (TypeError ("'<' not supported between instances of 'int' and '"
                        +:+ type_name v +:+ "'"))
  end.

(** [sum(len(x) for x in vs)] *)
Fixpoint sum_len (vs : list value) : result nat :=
  match vs with
  | [] => mret 0%nat
  | v :: vs' => n ← py_len v; m ← sum_len vs'; mret (n + m)%nat
  end.

(** [round(x, 0)] as an integer: to the nearest, ties to even. *)
Definition round_half_even (x : Q) : Z :=
  let f := Qfloor x in
  match (x - inject_Z f ?= 1 # 2)%Q with
  | Lt => f
  | Gt => (f + 1)%Z
  | Eq => if Z.even f then f else (f + 1)%Z
  end.

(** [round(x, 2)] *)
Definition round2 (x : Q) : Q :=
  (inject_Z (round_half_even (x * 100)) / 100)%Q.

(** A [try] body that updates a dictionary [S] in place: the updates made
    before an exception is raised stay. *)
Definition try_block (S A : Type) : Type := S -> S * result A.

#[export] Instance try_ret {S} : MRet (try_block S) := fun A x s => (s, inr x).
#[export] Instance try_bind {S} : MBind (try_block S) := fun A B f m s =>
  match m s with
  | (s', inl e) => (s', inl e)
  | (s', inr a) => f a s'
  end.

Definition lift {S A} (r : result A) : try_block S A := fun s => (s, r).
Definition assign {S} (f : S -> S) : try_block S unit := fun s => (f s, inr tt).

(** What the three score breakdowns have in common. *)
Class Breakdown (B : Type) := {
  total_score : B -> Q;
  error : B -> option string;
  set_total_score : Q -> B -> B;
  set_error : string -> B -> B
}.

(** [try: body  except Exception as e: b["error"] = label + str(e);
    b["total_score"] = 0] followed by [return b]. *)
Definition try_except {B} `{Breakdown B} (label : string)
    (body : try_block B unit) (init : B) : B :=
  match body init with
  | (b, inr _) => b
  | (b, inl e) => set_total_score 0%Q (set_error (label +:+ exn_msg e) b)
  end.

End Py.

(** ** [config.Config] *)

Module Config.
Definition HIRE_THRESHOLD : Q := 70.
Definition STRONG_HIRE_THRESHOLD : Q := 85.
End Config.

(** ** [ScoringEngine] *)

Module ScoringEngine.
Import PyStr Regex Py.

Local Open Scope Q_scope.

Record weights := Weights {
  w_skills : Q;
  w_experience : Q;
  w_education : Q;
  w_achievements : Q;
  w_cultural_fit : Q
}.

Record engine := Engine {
  score_weights : weights;
  hire_threshold : Q;
  strong_hire_threshold : Q
}.

(** [ScoringEngine.__init__] *)
Definition __init__ : engine :=
  Engine (Weights 0.35 0.30 0.15 0.10 0.10)
         Config.HIRE_THRESHOLD Config.STRONG_HIRE_THRESHOLD.

(** *** Skills *)

Record skills_details := SkillsDetails {
  exact_matches_count : nat;
  missing_critical_skills : nat;
  overall_match_percentage : Q
}.

Record skills_breakdown := SkillsBreakdown {
  technical_skills : Q;
  skill_depth : Q;
  skill_relevance : Q;
  skills_total : Q;
  skills_details_of : option skills_details;
  skills_error : option string
}.

#[export] Instance skills_is_breakdown : Breakdown skills_breakdown := {
  total_score := skills_total;
  error := skills_error;
  set_total_score q b :=
    SkillsBreakdown (technical_skills b) (skill_depth b) (skill_relevance b)
                    q (skills_details_of b) (skills_error b);
  set_error m b :=
    SkillsBreakdown (technical_skills b) (skill_depth b) (skill_relevance b)
                    (skills_total b) (skills_details_of b) (Some m)
}.

Definition set_technical_skills (q : Q) (b : skills_breakdown) :=
  SkillsBreakdown q (skill_depth b) (skill_relevance b)
                  (skills_total b) (skills_details_of b) (skills_error b).
Definition set_skill_depth (q : Q) (b : skills_breakdown) :=
  SkillsBreakdown (technical_skills b) q (skill_relevance b)
                  (skills_total b) (skills_details_of b) (skills_error b).
Definition set_skill_relevance (q : Q) (b : skills_breakdown) :=
  SkillsBreakdown (technical_skills b) (skill_depth b) q
                  (skills_total b) (skills_details_of b) (skills_error b).
Definition set_skills_details (d : skills_details) (b : skills_breakdown) :=
  SkillsBreakdown (technical_skills b) (skill_depth b) (skill_relevance b)
                  (skills_total b) (Some d) (skills_error b).

(** [sum(len(x) for x in d.values())] *)
Definition count_values (d : value) : result nat :=
  vs ← py_values d; sum_len vs.

Definition depth_of_count (total_matches : nat) : Q :=
  if (8 <=? total_matches)%nat then 90
  else if (5 <=? total_matches)%nat then 75
  else if (3 <=? total_matches)%nat then 60
  else 40.

(** [_analyze_skill_depth] *)
Definition _analyze_skill_depth (skill_analysis : value) : result Q :=
  exact_matches ← py_get skill_analysis "exact_matches" (VDict []);
  total_matches ← count_values exact_matches;
  mret (depth_of_count total_matches).

Definition relevance_of_counts (total_exact total_missing : nat) : Q :=
  if (total_exact + total_missing =? 0)%nat then 50
  else
    let relevance := Qnat total_exact / Qnat (total_exact + total_missing) * 100 in
    if Qlt_le_dec 100 relevance then 100 else relevance.

(** [_calculate_skill_relevance] *)
Definition _calculate_skill_relevance (exact_matches missing_skills : value)
    : result Q :=
  total_exact ← count_values exact_matches;
  total_missing ← count_values missing_skills;
  mret (relevance_of_counts total_exact total_missing).

Definition skills_init : skills_breakdown :=
  SkillsBreakdown 0 0 0 0 None None.

Definition skills_body (skill_analysis : value) : try_block skills_breakdown unit :=
  exact_matches ← lift (py_get skill_analysis "exact_matches" (VDict []));
  missing_skills ← lift (py_get skill_analysis "missing_skills" (VDict []));
  overall_match ← lift (py_get skill_analysis "overall_score" (VInt 0));
  technical_score ← lift (py_min_100 overall_match);
  _ ← assign (set_technical_skills technical_score);
  depth_score ← lift (_analyze_skill_depth skill_analysis);
  _ ← assign (set_skill_depth depth_score);
  relevance_score ← lift (_calculate_skill_relevance exact_matches missing_skills);
  _ ← assign (set_skill_relevance relevance_score);
  let total := technical_score * 0.4 + depth_score * 0.3 + relevance_score * 0.3 in
  _ ← assign (set_total_score (round2 total));
  n_exact ← lift (count_values exact_matches);
  n_missing ← lift (count_values missing_skills);
  assign (set_skills_details
            (SkillsDetails n_exact n_missing (default 0 (as_number overall_match)))).

(** [calculate_skills_score] *)
Definition calculate_skills_score (skill_analysis : value) : skills_breakdown :=
  try_except "Skills scoring error: " (skills_body skill_analysis) skills_init.

(** *** Experience *)

Section Str.

(** [str(v)] of a value that is not a string is its [repr]; the engine only
    searches the result for keywords, so the rendering is left open. *)
Variable repr : value -> string.

Definition py_str (v : value) : string :=
  match v with
  | VStr s => s
  | _ => repr v
  end.

(** [str(d.get(key, "")).lower()] *)
Definition lower_field (d : value) (key : string) : result text :=
  v ← py_get d key (VStr "");
  mret (lower (chars (py_str v))).

Definition year_patterns : list regex :=
  [ [Open] ++ plus CDigit ++ [Close; Opt (CLit "+"); Star CSpace]
      ++ lit "year" ++ [Opt (CLit "s")];
    [Open] ++ times 4 CDigit ++ [Close; Star CSpace; One (CLit "-"); Star CSpace; Open]
      ++ times 4 CDigit ++ [Close];
    [Open] ++ times 4 CDigit ++ [Close; Star CSpace; One (CLit "-"); Star CSpace]
      ++ lit "present" ].

(** [len(m)] of a [findall] item: the length of the string, or the number
    of components of the tuple. *)
Definition found_len (m : found) : nat :=
  match m with
  | FStr s => length s
  | FTuple gs => length gs
  end.

(** [(m[0], m[1])] when [len(m) == 2]: the two characters of a string of
    length two, or the two components of a pair. *)
Definition found_pair (m : found) : option (text * text) :=
  match m with
  | FStr [a; b] => Some ([a], [b])
  | FTuple [x; y] => Some (x, y)
  | _ => None
  end.

Definition to_int (t : text) : result Z :=
  match py_int t with
  | Some z => mret z
  | None =>
      raise (ValueError ("invalid literal for int() with base 10: '"
                         +:+ of_chars t +:+ "'"))
  end.

(** [int(m)] of a [findall] item. *)
Definition int_of_found (m : found) : result Z :=
  match m with
  | FStr s => to_int s
  | FTuple _ =>
      raise (TypeError
        "int() argument must be a string, a bytes-like object or a real number, not 'tuple'")
  end.

Fixpoint fold_result {A B} (f : A -> B -> result A) (a : A) (l : list B)
    : result A :=
  match l with
  | [] => mret a
  | b :: l' => a' ← f a b; fold_result f a' l'
  end.

(** The body of [for match in matches] in the year-range branch. *)
Definition add_range (total_years : Z) (m : found) : result Z :=
  match found_pair m with
  | Some (m0, m1) =>
      start_year ← to_int m0;
      end_year ← (if isdigit m1 then to_int m1 else mret 2024%Z);
      let years := (end_year - start_year)%Z in
      mret (total_years + years)%Z
  | None => mret total_years
  end.

(** The body of [for pattern in year_patterns]. *)
Definition scan_pattern (work_exp : text) (total_years : Z) (pattern : regex)
    : result Z :=
  let matches := findall pattern work_exp in
  match matches with
  | [] => mret total_years
  | first :: _ =>
      if (found_len first =? 1)%nat then
        n ← int_of_found first; mret (Z.max total_years n)
      else fold_result add_range total_years matches
  end.

Definition score_of_years (total_years : Z) : Q :=
  if (10 <=? total_years)%Z then 100
  else if (7 <=? total_years)%Z then 90
  else if (5 <=? total_years)%Z then 80
  else if (3 <=? total_years)%Z then 70
  else if (1 <=? total_years)%Z then 60
  else 30.

(** The years the scan of the work history arrives at. *)
Definition total_years_of (work_exp : text) : result Z :=
  fold_result (scan_pattern work_exp) 0%Z year_patterns.

(** [_calculate_years_score] *)
Definition _calculate_years_score (resume_data : value) : result Q :=
  work_exp ← lower_field resume_data "work_experience";
  total_years ← total_years_of work_exp;
  mret (score_of_years total_years).

(** [_calculate_role_relevance] *)
Definition _calculate_role_relevance (experience_analysis : value) : Q := 75.

(** [_calculate_industry_match] *)
Definition _calculate_industry_match (experience_analysis : value) : Q := 70.

(** The number of [indicators] that occur in [t]. *)
Definition count_in (indicators : list string) (t : text) : nat :=
  length (filter (fun i => contains (chars i) t) indicators).

Definition progression_indicators : list string :=
  ["promoted"; "senior"; "lead"; "manager"; "director";
   "principal"; "architect"; "head of"; "chief"].

Definition capped (score : Q) : Q :=
  if Qlt_le_dec 100 score then 100 else score.

(** [_calculate_career_progression] *)
Definition _calculate_career_progression (resume_data : value) : result Q :=
  work_exp ← lower_field resume_data "work_experience";
  mret (capped (50 + 10 * Qnat (count_in progression_indicators work_exp))).

Record experience_breakdown := ExperienceBreakdown {
  years_of_experience : Q;
  role_relevance : Q;
  industry_match : Q;
  career_progression : Q;
  experience_total : Q;
  experience_error : option string
}.

#[export] Instance experience_is_breakdown : Breakdown experience_breakdown := {
  total_score := experience_total;
  error := experience_error;
  set_total_score q b :=
    ExperienceBreakdown (years_of_experience b) (role_relevance b)
      (industry_match b) (career_progression b) q (experience_error b);
  set_error m b :=
    ExperienceBreakdown (years_of_experience b) (role_relevance b)
      (industry_match b) (career_progression b) (experience_total b) (Some m)
}.

Definition set_years_of_experience (q : Q) (b : experience_breakdown) :=
  ExperienceBreakdown q (role_relevance b) (industry_match b)
    (career_progression b) (experience_total b) (experience_error b).
Definition set_role_relevance (q : Q) (b : experience_breakdown) :=
  ExperienceBreakdown (years_of_experience b) q (industry_match b)
    (career_progression b) (experience_total b) (experience_error b).
Definition set_industry_match (q : Q) (b : experience_breakdown) :=
  ExperienceBreakdown (years_of_experience b) (role_relevance b) q
    (career_progression b) (experience_total b) (experience_error b).
Definition set_career_progression (q : Q) (b : experience_breakdown) :=
  ExperienceBreakdown (years_of_experience b) (role_relevance b)
    (industry_match b) q (experience_total b) (experience_error b).

Definition experience_init : experience_breakdown :=
  ExperienceBreakdown 0 0 0 0 0 None.

Definition experience_body (experience_analysis resume_data : value)
    : try_block experience_breakdown unit :=
  years_score ← lift (_calculate_years_score resume_data);
  _ ← assign (set_years_of_experience years_score);
  let role_score := _calculate_role_relevance experience_analysis in
  _ ← assign (set_role_relevance role_score);
  let industry_score := _calculate_industry_match experience_analysis in
  _ ← assign (set_industry_match industry_score);
  progression_score ← lift (_calculate_career_progression resume_data);
  _ ← assign (set_career_progression progression_score);
  let total :=
    years_score * 0.3 + role_score * 0.4 + industry_score * 0.2
    + progression_score * 0.1 in
  assign (set_total_score (round2 total)).

(** [calculate_experience_score] *)
Definition calculate_experience_score (experience_analysis resume_data : value)
    : experience_breakdown :=
  try_except "Experience scoring error: "
    (experience_body experience_analysis resume_data) experience_init.

(** *** Education *)

Definition degree_levels : list string :=
  ["phd"; "doctorate"; "master"; "bachelor"; "associate"].

Definition degree_scores : list (string * Z) :=
  [("associate", 1); ("bachelor", 2); ("master", 3); ("doctorate", 4); ("phd", 4)]%Z.

(** The first degree word of [degree_levels] that occurs in [t]. *)
Definition first_degree (t : text) : option string :=
  List.find (fun degree => contains (chars degree) t) degree_levels.

(** [degree_scores.get(degree, 0)] *)
Definition degree_level (degree : string) : Z :=
  match List.find (fun ds => String.eqb degree (fst ds)) degree_scores with
  | Some ds => snd ds
  | None => 0%Z
  end.

(** [_calculate_degree_match] *)
Definition _calculate_degree_match (education_text jd_education : text) : Q :=
  let candidate_degree := first_degree education_text in
  let required_degree := first_degree jd_education in
  match required_degree with
  | None => 80
  | Some required =>
      match candidate_degree with
      | None => 30
      | Some candidate =>
          let candidate_level := degree_level candidate in
          let required_level := degree_level required in
          if (required_level <=? candidate_level)%Z then 100
          else if (candidate_level =? required_level - 1)%Z then 70
          else 40
      end
  end.

Definition tech_fields : list string :=
  ["computer science"; "software"; "engineering"; "technology";
   "information systems"; "data science"; "mathematics"; "statistics"].

Definition any_in (words : list string) (t : text) : bool :=
  existsb (fun w => contains (chars w) t) words.

(** [_calculate_field_relevance] *)
Definition _calculate_field_relevance (education_text jd_education : text) : Q :=
  let candidate_has_tech := any_in tech_fields education_text in
  let jd_requires_tech := any_in tech_fields jd_education in
  if negb jd_requires_tech then 80
  else if candidate_has_tech then 90
  else 50.

Definition cert_indicators : list string :=
  ["certified"; "certification"; "aws"; "azure"; "google cloud";
   "pmp"; "scrum master"; "agile"; "itil"; "cissp"].

(** [_calculate_certification_score] *)
Definition _calculate_certification_score (resume_data : value) : result Q :=
  t ← lower_field resume_data "achievements";
  let cert_count := count_in cert_indicators t in
  mret (capped (Qnat cert_count * 20)).

Record education_breakdown := EducationBreakdown {
  degree_match : Q;
  institution_quality : Q;
  field_relevance : Q;
  certifications : Q;
  education_total : Q;
  education_error : option string
}.

#[export] Instance education_is_breakdown : Breakdown education_breakdown := {
  total_score := education_total;
  error := education_error;
  set_total_score q b :=
    EducationBreakdown (degree_match b) (institution_quality b)
      (field_relevance b) (certifications b) q (education_error b);
  set_error m b :=
    EducationBreakdown (degree_match b) (institution_quality b)
      (field_relevance b) (certifications b) (education_total b) (Some m)
}.

Definition set_degree_match (q : Q) (b : education_breakdown) :=
  EducationBreakdown q (institution_quality b) (field_relevance b)
    (certifications b) (education_total b) (education_error b).
Definition set_field_relevance (q : Q) (b : education_breakdown) :=
  EducationBreakdown (degree_match b) (institution_quality b) q
    (certifications b) (education_total b) (education_error b).
Definition set_certifications (q : Q) (b : education_breakdown) :=
  EducationBreakdown (degree_match b) (institution_quality b)
    (field_relevance b) q (education_total b) (education_error b).

Definition education_init : education_breakdown :=
  EducationBreakdown 0 0 0 0 0 None.

Definition education_body (resume_data jd_data : value)
    : try_block education_breakdown unit :=
  education_text ← lift (lower_field resume_data "education");
  jd_education ← lift (lower_field jd_data "educational_requirements");
  let degree_score := _calculate_degree_match education_text jd_education in
  _ ← assign (set_degree_match degree_score);
  let field_score := _calculate_field_relevance education_text jd_education in
  _ ← assign (set_field_relevance field_score);
  cert_score ← lift (_calculate_certification_score resume_data);
  _ ← assign (set_certifications cert_score);
  let total := degree_score * 0.4 + field_score * 0.4 + cert_score * 0.2 in
  assign (set_total_score (round2 total)).

(** [calculate_education_score] *)
Definition calculate_education_score (resume_data jd_data : value)
    : education_breakdown :=
  try_except "Education scoring error: "
    (education_body resume_data jd_data) education_init.

(** *** Overall *)

Definition achievement_indicators : list string :=
  ["award"; "recognition"; "published"; "patent"; "led team";
   "increased"; "improved"; "reduced"; "saved"; "grew"; "built"].

(** [_calculate_achievements_score] *)
Definition _calculate_achievements_score (resume_data : value) : result Q :=
  achievements_text ← lower_field resume_data "achievements";
  mret (capped (50 + 8 * Qnat (count_in achievement_indicators achievements_text))).

Record recommendation := Recommendation {
  decision : string;
  confidence : string;
  reasoning : string;
  score : Q
}.

(** [_generate_recommendation] *)
Definition _generate_recommendation (self : engine) (overall_score : Q)
    : recommendation :=
  if Qle_bool (strong_hire_threshold self) overall_score then
    Recommendation "Strong Hire" "High"
      "Candidate demonstrates strong alignment with role requirements"
      overall_score
  else if Qle_bool (hire_threshold self) overall_score then
    Recommendation "Hire" "Medium-High"
      "Candidate meets most requirements with some areas for development"
      overall_score
  else if Qle_bool 50 overall_score then
    Recommendation "Maybe" "Medium"
      "Candidate shows potential but has significant gaps"
      overall_score
  else
    Recommendation "Don't Hire" "High"
      "Candidate does not meet minimum requirements"
      overall_score.

Definition Qlt_bool (x y : Q) : bool := negb (Qle_bool y x).

(** [_identify_risk_factors] *)
Definition _identify_risk_factors (skills_score : skills_breakdown)
    (experience_score : experience_breakdown)
    (education_score : education_breakdown) : list string :=
  (if Qlt_bool (total_score skills_score) 60
   then ["Significant technical skill gaps"] else [])
  ++ (if Qlt_bool (total_score experience_score) 50
      then ["Limited relevant experience"] else [])
  ++ (if Qlt_bool (total_score education_score) 40
      then ["Educational background concerns"] else []).

(** [_identify_strengths] *)
Definition _identify_strengths (skills_score : skills_breakdown)
    (experience_score : experience_breakdown)
    (education_score : education_breakdown) : list string :=
  (if Qle_bool 80 (total_score skills_score)
   then ["Strong technical skills"] else [])
  ++ (if Qle_bool 80 (total_score experience_score)
      then ["Extensive relevant experience"] else [])
  ++ (if Qle_bool 80 (total_score education_score)
      then ["Strong educational background"] else []).

(** [_calculate_confidence] *)
Definition _calculate_confidence (overall_score : Q)
    (skills_score : skills_breakdown) (experience_score : experience_breakdown)
    : string :=
  let a := total_score skills_score in
  let b := total_score experience_score in
  let score_variance := Qmax a b - Qmin a b in
  if Qlt_bool score_variance 20
     && (Qlt_bool 80 overall_score || Qlt_bool overall_score 40)
  then "High"
  else if Qlt_bool score_variance 30 then "Medium"
  else "Low".

Record component_scores := ComponentScores {
  c_skills : Q;
  c_experience : Q;
  c_education : Q;
  c_achievements : Q
}.

Record overall_result := OverallResult {
  overall_score : Q;
  components : component_scores;
  recommended : recommendation;
  skills_analysis : skills_breakdown;
  experience_analysis : experience_breakdown;
  education_analysis : education_breakdown;
  risk_factors : list string;
  strengths : list string;
  decision_confidence : string
}.

(** [calculate_overall_score].  The three breakdowns are the dictionaries
    the functions above return; nothing catches what is raised here. *)
Definition calculate_overall_score (self : engine)
    (skills_score : skills_breakdown) (experience_score : experience_breakdown)
    (education_score : education_breakdown) (resume_data : value)
    : result overall_result :=
  let skills_total := total_score skills_score in
  let experience_total := total_score experience_score in
  let education_total := total_score education_score in
  achievements_score ← _calculate_achievements_score resume_data;
  let overall :=
    skills_total * w_skills (score_weights self)
    + experience_total * w_experience (score_weights self)
    + education_total * w_education (score_weights self)
    + achievements_score * w_achievements (score_weights self) in
  let recommendation := _generate_recommendation self overall in
  mret (OverallResult (round2 overall)
          (ComponentScores skills_total experience_total education_total
                           achievements_score)
          recommendation skills_score experience_score education_score
          (_identify_risk_factors skills_score experience_score education_score)
          (_identify_strengths skills_score experience_score education_score)
          (_calculate_confidence overall skills_score experience_score)).

End Str.

End ScoringEngine.

(** * Properties *)

Import PyStr Regex SkillMatcher Py ScoringEngine.

(** ** Notions the statements use *)


(** Every term the extractor looks for: the canonical skills of the
    taxonomy and the alternate forms of the synonym table. *)
Definition searched_terms : list string :=
  concat (map snd skill_categories) ++ concat (map snd skill_synonyms).

(** The synonym keys that a category of the taxonomy lists. *)
Definition categorised_keys : list string :=
  ["javascript"; "typescript"; "python"; "postgresql"; "mongodb"; "kubernetes"].

(** Resume data that holds a work history and nothing else. *)
Definition work_history (s : string) : value := VDict [("work_experience", VStr s)].

(** The specification's reading of a mention: the term occurs in the text
    with a word boundary on either side, a word boundary being a place
    where exactly one of the two neighbouring characters is a word
    character (the ends of the text counting as non-word). *)
Definition is_word_at (o : option ascii) : bool :=
  match o with
  | Some c => is_word c
  | None => false
  end.

Definition word_boundary (left right : text) : Prop :=
  is_word_at (last left) <> is_word_at (head right).

Definition bounded_occurrence (term t : text) : Prop :=
  exists pre post,
    t = pre ++ term ++ post
    /\ word_boundary pre (term ++ post)
    /\ word_boundary (pre ++ term) post.

(** The character before a position that lies [w] after one preceded by
    [prev]. *)
Definition last_or (prev : option ascii) (w : text) : option ascii :=
  match last w with
  | Some c => Some c
  | None => prev
  end.

(** The category that receives a canonical skill found through a synonym:
    the first one of the taxonomy that lists it. *)
Definition first_category (skill : string) (cats : list (string * list string))
    : option string :=
  match List.find (fun cs => bool_decide (skill ∈ snd cs)) cats with
  | Some cs => Some (fst cs)
  | None => None
  end.

(** What follows an occurrence: the end of the text, a blank or a
    punctuation mark. *)
Definition break_after (post : text) : bool :=
  match post with
  | [] => true
  | c :: _ => is_space c || is_punct c
  end.

(** [ok] holds after every occurrence of [w] in [t]. *)
Fixpoint every_occurrence (ok : text -> bool) (w t : text) : bool :=
  (if starts_with w t then ok (drop (length w) t) else true)
  && match t with
     | [] => true
     | _ :: t' => every_occurrence ok w t'
     end.

(** The candidate and the required skills of the specification's example. *)
Definition example_candidate : gmap string (list string) :=
  {[ "programming_languages" := ["python"; "java"] ]}.
Definition example_required : gmap string (list string) :=
  {[ "programming_languages" := ["python"; "javascript"] ]}.

(** [candidate_skills[category].append(skill)], the category being created
    when the candidate has none of its skills yet. *)
Definition add_skill (category skill : string) (candidate : gmap string (list string))
    : gmap string (list string) :=
  <[category := default [] (candidate !! category) ++ [skill]]> candidate.

(** A dictionary from categories to lists of skills, as a value. *)
Definition skills_dict (m : list (string * list string)) : value :=
  VDict (map (fun kv => (fst kv, VList (map VStr (snd kv)))) m).


(** [isinstance(v, dict)] *)
Definition is_dict (v : value) : bool :=
  match v with
  | VDict _ => true
  | _ => false
  end.



(** A resume analysis and a job analysis as the upstream layer hands them on. *)
Definition example_resume : list (string * value) :=
  [("work_experience", VStr "Senior engineer, 5 years, promoted to lead");
   ("education", VStr "Bachelor of Computer Science");
   ("achievements", VStr "AWS certified; improved build times")].

Definition example_jd : value :=
  VDict [("educational_requirements", VStr "Master in engineering")].

(** The lower-cased text of a field of a dictionary, [""] when absent. *)
Definition text_of (repr : value -> string) (d : list (string * value))
    (key : string) : text :=
  lower (chars (py_str repr (default (VStr "") (assoc key d)))).

Local Open Scope Q_scope.

(** The score of a category: the share of its required skills that the
    candidate has, in percent. *)
Definition score_at (candidate required : gmap string (list string))
    (category : string) : Q :=
  (Qnat (size (skills_at candidate category ∩ skills_at required category))
   / Qnat (size (skills_at required category)) * 100)%Q.

(** What the [except] clause leaves of a breakdown. *)
Definition failed {B} `{Breakdown B} (label : string) (e : exn) (b : B) : B :=
  set_total_score 0 (set_error (label +:+ exn_msg e) b).

(** The value of [min(q, 100)]. *)
Definition min_100 (q : Q) : Q := if Qlt_le_dec 100 q then 100 else q.

(** A skill analysis of the shape [calculate_skill_match_score] returns and
    the tests build: two dictionaries from categories to lists of skills,
    and the overall match score. *)
Record skill_analysis := SkillAnalysis {
  sa_exact_matches : list (string * list string);
  sa_missing_skills : list (string * list string);
  sa_overall_score : Q
}.

(** The dictionary [calculate_skills_score] receives for an analysis. *)
Definition to_value (a : skill_analysis) : value :=
  VDict [("exact_matches", skills_dict (sa_exact_matches a));
         ("missing_skills", skills_dict (sa_missing_skills a));
         ("overall_score", VFloat (sa_overall_score a))].


(** An overall match of 75 with three exact matches and one missing skill. *)
Definition example_analysis : skill_analysis :=
  SkillAnalysis
    [("programming_languages", ["python"; "java"]); ("databases", ["postgresql"])]
    [("web_technologies", ["react"])]
    75.


Local Close Scope Q_scope.

(** ** Tactics *)

(** Compares the two sides of a lookup after one more turn of the loop, the
    category [c] being the one of that turn ([a]) or another. *)
Ltac lookup_cases c a :=
  destruct (decide (c = a)) as [->|?];
  [ rewrite ?lookup_insert_eq | rewrite ?lookup_insert_ne by congruence ];
  repeat case_decide; try reflexivity;
  exfalso; rewrite ?elem_of_cons in *; intuition congruence.


(** ** The taxonomy and the synonym table *)



(** ** The recommendation *)

Local Open Scope Q_scope.

Lemma Qle_bool_false (x y : Q) : Qle_bool x y = false <-> y < x.
Proof.
  split.
  - intros H. apply Qnot_le_lt. intros Hle.
    apply Qle_bool_iff in Hle. congruence.
  - intros H. destruct (Qle_bool x y) eqn:E; [|reflexivity].
    apply Qle_bool_iff in E. lra.
Qed.

(** C6: with the thresholds of [Config] (hire 70, strong hire 85) a score of
    at least 85 is a "Strong Hire" with High confidence, one of at least 70 a
    "Hire" with Medium-High, one of at least 50 a "Maybe" with Medium, and
    any other a "Don't Hire" with High; 85.0 is a Strong Hire, 84.99 a Hire,
    69.99 a Maybe and 49.99 a Don't Hire. *)
Theorem recommendation_by_thresholds (s : Q) :
  let r := _generate_recommendation __init__ s in
  score r = s
  /\ (85 <= s -> decision r = "Strong Hire" /\ confidence r = "High")
  /\ (70 <= s -> s < 85 -> decision r = "Hire" /\ confidence r = "Medium-High")
  /\ (50 <= s -> s < 70 -> decision r = "Maybe" /\ confidence r = "Medium")
  /\ (s < 50 -> decision r = "Don't Hire" /\ confidence r = "High")
  /\ decision (_generate_recommendation __init__ 85.0) = "Strong Hire"
  /\ decision (_generate_recommendation __init__ 84.99) = "Hire"
  /\ decision (_generate_recommendation __init__ 69.99) = "Maybe"
  /\ decision (_generate_recommendation __init__ 49.99) = "Don't Hire".
Proof.
  cbv zeta. unfold _generate_recommendation, __init__.
  cbn [strong_hire_threshold hire_threshold].
  unfold Config.STRONG_HIRE_THRESHOLD, Config.HIRE_THRESHOLD.
  split; [destruct (Qle_bool 85 s), (Qle_bool 70 s), (Qle_bool 50 s); reflexivity|].
  split.
  { intros H85. apply Qle_bool_iff in H85. rewrite H85. split; reflexivity. }
  split.
  { intros H70 H85. apply Qle_bool_iff in H70. apply Qle_bool_false in H85.
    rewrite H85, H70. split; reflexivity. }
  split.
  { intros H50 H70. assert (H85 : s < 85) by lra.
    apply Qle_bool_iff in H50. apply Qle_bool_false in H70, H85.
    rewrite H85, H70, H50. split; reflexivity. }
  split.
  { intros H50. assert (H70 : s < 70) by lra. assert (H85 : s < 85) by lra.
    apply Qle_bool_false in H50, H70, H85.
    rewrite H85, H70, H50. split; reflexivity. }
  repeat split; reflexivity.
Qed.

Lemma recommendation_by_thresholds_witness :
  decision (_generate_recommendation __init__ 72.5) = "Hire"
  /\ confidence (_generate_recommendation __init__ 72.5) = "Medium-High".
Proof.
  apply (proj1 (proj2 (proj2 (recommendation_by_thresholds 72.5)))).
  - vm_compute. discriminate.
  - vm_compute. reflexivity.
Defined.

(** ** Years of experience *)

(** C2 at a failing input: for the work history "10+ years of experience"
    the scan finds the single mention "10", takes the two-character string
    for a year range from 1 to 0, arrives at -1 years and returns the score
    30, although ten years map to 100; and "2019 - present" counts for no
    years at all. *)
Theorem years_score_of_ten_plus_years (repr : value -> string) :
  findall (hd [] year_patterns) (lower (chars "10+ years of experience"))
    = [FStr (chars "10")]
  /\ total_years_of (lower (chars "10+ years of experience")) = inr (-1)%Z
  /\ _calculate_years_score repr (work_history "10+ years of experience") = inr 30
  /\ score_of_years 10 = 100
  /\ total_years_of (lower (chars "2019 - present")) = inr 0%Z
  /\ _calculate_years_score repr (work_history "2019 - present") = inr 30.
Proof. repeat split; vm_compute; reflexivity. Qed.

(** ** Mentions of a term in a text *)

Lemma last_or_cons prev a w : last_or prev (a :: w) = last_or (Some a) w.
Proof.
  unfold last_or. destruct w as [|b w]; [reflexivity|].
  change (last (a :: b :: w)) with (last (b :: w)).
  destruct (last (b :: w)) eqn:E; [reflexivity|].
  apply last_None in E. discriminate E.
Qed.

Lemma last_or_app prev u w : last_or prev (u ++ w) = last_or (last_or prev u) w.
Proof.
  revert prev. induction u as [|a u IH]; intros prev; [reflexivity|].
  rewrite <- app_comm_cons, !last_or_cons. apply IH.
Qed.

Lemma last_or_None w : last_or None w = last w.
Proof. unfold last_or. destruct (last w); reflexivity. Qed.

Lemma last_app_or u w : last (u ++ w) = last_or (last u) w.
Proof. rewrite <- last_or_None, last_or_app, last_or_None. reflexivity. Qed.

Lemma at_boundary_spec prev s :
  at_boundary prev s = true <-> is_word_at prev <> is_word_at (head s).
Proof.
  unfold at_boundary.
  replace (word_before prev) with (is_word_at prev) by (destruct prev; reflexivity).
  replace (word_after s) with (is_word_at (head s)) by (destruct s; reflexivity).
  destruct (is_word_at prev), (is_word_at (head s)); cbn; split; congruence.
Qed.

Lemma match_escape_app w rest marks pos prev post :
  match_here (escape w ++ rest) marks pos prev (w ++ post)
  = match_here rest marks (pos + length w) (last_or prev w) post.
Proof.
  revert pos prev. induction w as [|a w IH]; intros pos prev.
  - cbn. rewrite Nat.add_0_r. reflexivity.
  - cbn [escape map app match_here cls]. rewrite Ascii.eqb_refl.
    fold (escape w). rewrite IH, last_or_cons.
    cbn [length]. f_equal. lia.
Qed.

Lemma match_escape_inv w rest marks pos prev s :
  is_Some (match_here (escape w ++ rest) marks pos prev s) ->
  exists post, s = w ++ post.
Proof.
  revert pos prev s. induction w as [|a w IH]; intros pos prev s H.
  - exists s. reflexivity.
  - cbn [escape map app match_here cls] in H. fold (escape w) in H.
    destruct s as [|b s]; [destruct H as [? H]; discriminate H|].
    destruct (Ascii.eqb a b) eqn:E; [|destruct H as [? H]; discriminate H].
    apply Ascii.eqb_eq in E. subst b.
    destruct (IH _ _ _ H) as [post ->]. exists post. reflexivity.
Qed.

Lemma match_skill_pattern skill pos prev s :
  let w := lower (chars skill) in
  is_Some (match_here (skill_pattern skill) [] pos prev s)
  <-> at_boundary prev s = true
      /\ exists post, s = w ++ post /\ at_boundary (last_or prev w) post = true.
Proof.
  intros w. unfold skill_pattern. fold w.
  cbn [match_here]. split.
  - intros H. destruct (at_boundary prev s) eqn:B;
      [|destruct H as [? H]; discriminate H].
    split; [reflexivity|].
    destruct (match_escape_inv _ _ _ _ _ _ H) as [post ->].
    exists post. split; [reflexivity|].
    rewrite match_escape_app in H. cbn [match_here] in H.
    destruct (at_boundary (last_or prev w) post); [reflexivity|].
    destruct H as [? H]; discriminate H.
  - intros [B (post & -> & B')]. rewrite B, match_escape_app.
    cbn [match_here]. rewrite B'. eexists; reflexivity.
Qed.

Lemma search_from_spec p pos prev s :
  is_Some (search_from p pos prev s)
  <-> exists pre post,
        s = pre ++ post
        /\ is_Some (match_here p [] (pos + length pre) (last_or prev pre) post).
Proof.
  revert pos prev. induction s as [|a s IH]; intros pos prev; cbn [search_from].
  - destruct (match_here p [] pos prev []) eqn:E.
    + split; [|intros _; eexists; reflexivity].
      intros _. exists [], []. cbn. rewrite Nat.add_0_r, E.
      split; [reflexivity | eexists; reflexivity].
    + split; [intros [? H]; discriminate H|].
      intros (pre & post & Hs & H).
      symmetry in Hs. apply app_eq_nil in Hs. destruct Hs as [-> ->].
      cbn in H. rewrite Nat.add_0_r, E in H.
      destruct H as [? H]; discriminate H.
  - destruct (match_here p [] pos prev (a :: s)) eqn:E.
    + split; [|intros _; eexists; reflexivity].
      intros _. exists [], (a :: s). cbn. rewrite Nat.add_0_r, E.
      split; [reflexivity | eexists; reflexivity].
    + rewrite IH. split.
      * intros (pre & post & -> & H). exists (a :: pre), post.
        split; [reflexivity|]. rewrite last_or_cons. cbn [length].
        replace (pos + S (length pre))%nat with (S pos + length pre)%nat by lia.
        exact H.
      * intros (pre & post & Hs & H). destruct pre as [|b pre].
        -- cbn in Hs, H. subst post. rewrite Nat.add_0_r, E in H.
           destruct H as [? H]; discriminate H.
        -- injection Hs as -> ->. exists pre, post.
           split; [reflexivity|]. rewrite last_or_cons in H. cbn [length] in H.
           replace (pos + S (length pre))%nat with (S pos + length pre)%nat in H by lia.
           exact H.
Qed.

(** [_skill_mentioned] decides the bounded occurrence of the lower-cased
    term. *)
Lemma skill_mentioned_spec skill t :
  _skill_mentioned skill t = true <-> bounded_occurrence (lower (chars skill)) t.
Proof.
  unfold _skill_mentioned, search. rewrite bool_decide_eq_true, search_from_spec.
  unfold bounded_occurrence, word_boundary. split.
  - intros (pre & s & -> & H). apply match_skill_pattern in H.
    destruct H as [B (post & -> & B')]. exists pre, post.
    rewrite last_or_None in B, B'.
    apply at_boundary_spec in B, B'.
    rewrite last_app_or.
    split; [reflexivity|]. split; assumption.
  - intros (pre & post & -> & B & B'). exists pre, (lower (chars skill) ++ post).
    split; [reflexivity|]. apply match_skill_pattern.
    rewrite last_or_None. split; [apply at_boundary_spec; exact B|].
    exists post. split; [reflexivity|]. apply at_boundary_spec.
    rewrite last_app_or in B'. exact B'.
Qed.

(** ** What the extractor records *)

Close Scope Q_scope.

Section Extract.

Variable t : text.

Lemma found_in_append c s fs c' :
  found_in (found_append c s fs) c'
  = if decide (c' = c) then found_in fs c ++ [s] else found_in fs c'.
Proof.
  unfold found_in at 1. unfold found_append. case_decide as E.
  - subst c'. rewrite lookup_insert_eq. reflexivity.
  - rewrite lookup_insert_ne by congruence. reflexivity.
Qed.

Lemma check_category_spec fs c skills c' s :
  s ∈ found_in (check_category t fs (c, skills)) c'
  <-> s ∈ found_in fs c'
      \/ (c' = c /\ s ∈ skills /\ _skill_mentioned s t = true).
Proof.
  unfold check_category. cbn [fst snd].
  revert fs. induction skills as [|a skills IH]; intros fs; cbn [foldl].
  - split; [tauto|]. intros [H|(_ & H & _)]; [exact H | inversion H].
  - rewrite IH. destruct (_skill_mentioned a t) eqn:M.
    + rewrite found_in_append. case_decide as E.
      * subst c'. rewrite elem_of_app, list_elem_of_singleton, elem_of_cons.
        split; [|intuition congruence].
        intros [[H| ->]|H]; [tauto| |tauto]. right. tauto.
      * rewrite elem_of_cons. split; [tauto|].
        intros [H|(-> & _)]; [tauto | contradiction].
    + rewrite elem_of_cons. split; [tauto|].
      intros [H|(-> & [->|H] & M')]; [tauto | congruence | tauto].
Qed.

Lemma first_loop_spec cats fs c s :
  s ∈ found_in (foldl (check_category t) fs cats) c
  <-> s ∈ found_in fs c
      \/ exists skills, (c, skills) ∈ cats /\ s ∈ skills
                        /\ _skill_mentioned s t = true.
Proof.
  revert fs. induction cats as [|[c0 skills0] cats IH]; intros fs; cbn [foldl].
  - split; [tauto|]. intros [H|(skills & H & _)]; [exact H | inversion H].
  - rewrite IH, check_category_spec. split.
    + intros [[H|(-> & H1 & H2)]|(skills & H & H1 & H2)].
      * tauto.
      * right. exists skills0. split; [left | tauto].
      * right. exists skills. split; [right; exact H | tauto].
    + intros [H|(skills & H & H1 & H2)]; [tauto|].
      apply elem_of_cons in H. destruct H as [[= -> ->]|H].
      * left. right. tauto.
      * right. exists skills. tauto.
Qed.

Lemma record_main_spec main cats fs c s :
  s ∈ found_in (record_main main cats fs) c
  <-> s ∈ found_in fs c \/ (s = main /\ first_category main cats = Some c).
Proof.
  unfold first_category.
  induction cats as [|[c0 skills0] cats IH]; cbn [record_main List.find snd fst].
  - split; [tauto|]. intros [H|(_ & H)]; [exact H | discriminate H].
  - destruct (bool_decide (main ∈ skills0)); [|exact IH].
    case_bool_decide as Hin.
    + split; [tauto|]. intros [H|(-> & [= <-])]; [exact H | exact Hin].
    + rewrite found_in_append. case_decide as E.
      * subst c. rewrite elem_of_app, list_elem_of_singleton.
        split; [tauto|]. intros [H|(-> & _)]; tauto.
      * split; [tauto|]. intros [H|(_ & [= <-])]; [exact H | contradiction].
Qed.

Lemma check_synonyms_spec fs main synonyms c s :
  s ∈ found_in (check_synonyms t fs (main, synonyms)) c
  <-> s ∈ found_in fs c
      \/ (s = main /\ first_category main skill_categories = Some c
          /\ exists synonym, synonym ∈ synonyms
                             /\ _skill_mentioned synonym t = true).
Proof.
  unfold check_synonyms. cbn [fst snd].
  revert fs. induction synonyms as [|a synonyms IH]; intros fs; cbn [foldl].
  - split; [tauto|]. intros [H|(_ & _ & syn & H & _)]; [exact H | inversion H].
  - rewrite IH. destruct (_skill_mentioned a t) eqn:M.
    + rewrite record_main_spec. split.
      * intros [[H|(-> & H)]|(-> & H & syn & H1 & H2)].
        -- tauto.
        -- right. split; [reflexivity|]. split; [exact H|].
           exists a. split; [left | exact M].
        -- right. split; [reflexivity|]. split; [exact H|].
           exists syn. split; [right; exact H1 | exact H2].
      * intros [H|(-> & H & _)]; tauto.
    + split.
      * intros [H|(-> & H & syn & H1 & H2)]; [tauto|].
        right. split; [reflexivity|]. split; [exact H|].
        exists syn. split; [right; exact H1 | exact H2].
      * intros [H|(-> & H & syn & H1 & H2)]; [tauto|].
        apply elem_of_cons in H1. destruct H1 as [->|H1]; [congruence|].
        right. split; [reflexivity|]. split; [exact H|]. exists syn. tauto.
Qed.

Lemma second_loop_spec table fs c s :
  s ∈ found_in (foldl (check_synonyms t) fs table) c
  <-> s ∈ found_in fs c
      \/ (first_category s skill_categories = Some c
          /\ exists synonyms synonym,
               (s, synonyms) ∈ table /\ synonym ∈ synonyms
               /\ _skill_mentioned synonym t = true).
Proof.
  revert fs. induction table as [|[main syns] table IH]; intros fs; cbn [foldl].
  - split; [tauto|].
    intros [H|(_ & syns & syn & H & _)]; [exact H | inversion H].
  - rewrite IH, check_synonyms_spec. split.
    + intros [[H|(-> & H & syn & H1 & H2)]|(H & syns' & syn & H1 & H2 & H3)].
      * tauto.
      * right. split; [exact H|]. exists syns, syn. split; [left | tauto].
      * right. split; [exact H|]. exists syns', syn. split; [right; exact H1 | tauto].
    + intros [H|(H & syns' & syn & H1 & H2 & H3)]; [tauto|].
      apply elem_of_cons in H1. destruct H1 as [[= -> ->]|H1].
      * left. right. split; [reflexivity|]. split; [exact H|]. exists syn. tauto.
      * right. split; [exact H|]. exists syns', syn. tauto.
Qed.

End Extract.

(** The extractor records a skill under a category exactly when the
    category lists the skill and the skill is mentioned, or one of the
    skill's alternate forms is mentioned and the category is the one that
    owns the skill. *)
Lemma extract_skills_spec (txt : string) (category skill : string) :
  skill ∈ found_in (extract_skills_from_text txt) category
  <-> (exists skills, (category, skills) ∈ skill_categories /\ skill ∈ skills
                      /\ _skill_mentioned skill (lower (chars txt)) = true)
      \/ (first_category skill skill_categories = Some category
          /\ exists synonyms synonym,
               (skill, synonyms) ∈ skill_synonyms /\ synonym ∈ synonyms
               /\ _skill_mentioned synonym (lower (chars txt)) = true).
Proof.
  unfold extract_skills_from_text. cbv zeta.
  rewrite second_loop_spec, first_loop_spec.
  unfold found_in at 1. rewrite lookup_empty. cbn [default from_option].
  split; [|tauto]. intros [[H|H]|H]; [inversion H | tauto | tauto].
Qed.

Open Scope Q_scope.


(** ** Terms that end in a non-word character *)

Lemma starts_with_app w post : starts_with w (w ++ post) = true.
Proof.
  induction w as [|a w IH]; [reflexivity|].
  cbn. rewrite Ascii.eqb_refl. exact IH.
Qed.

Lemma every_occurrence_spec ok w t :
  every_occurrence ok w t = true ->
  forall pre post, t = pre ++ w ++ post -> ok post = true.
Proof.
  revert t. intros t H pre. revert t H.
  induction pre as [|a pre IH]; intros t H post ->.
  - destruct w as [|b w]; destruct post as [|c post]; cbn in H;
      try (apply andb_prop in H; destruct H as [H _]).
    + exact H.
    + exact H.
    + rewrite Ascii.eqb_refl, starts_with_app in H. cbn in H.
      rewrite drop_app_length in H. exact H.
    + rewrite Ascii.eqb_refl, starts_with_app in H. cbn in H.
      rewrite drop_app_length in H. exact H.
  - cbn [app every_occurrence] in H. apply andb_prop in H. destruct H as [_ H].
    eapply IH; [exact H | reflexivity].
Qed.

Lemma space_or_punct_not_word c :
  is_space c || is_punct c = true -> is_word c = false.
Proof.
  destruct c as [[] [] [] [] [] [] [] []]; vm_compute; congruence.
Qed.

Lemma is_word_lower_char c : is_word (lower_char c) = is_word c.
Proof. destruct c as [[] [] [] [] [] [] [] []]; vm_compute; reflexivity. Qed.

Lemma last_lower w : last (lower w) = option_map lower_char (last w).
Proof.
  induction w as [|a w IH]; [reflexivity|].
  destruct w as [|b w]; [reflexivity|]. exact IH.
Qed.

(** A term whose last character is not a word character is not mentioned
    in a text where none of its occurrences is followed by a word
    character. *)
Lemma trailing_nonword_not_mentioned term t :
  is_word_at (last (chars term)) = false ->
  chars term <> [] ->
  (forall pre post, t = pre ++ lower (chars term) ++ post ->
                    is_word_at (head post) = false) ->
  _skill_mentioned term t = false.
Proof.
  intros Hlast Hne Hocc.
  destruct (_skill_mentioned term t) eqn:E; [|reflexivity].
  apply skill_mentioned_spec in E. destruct E as (pre & post & Ht & _ & B).
  exfalso. apply B. rewrite (Hocc _ _ Ht), last_app_or.
  unfold last_or. rewrite last_lower.
  destruct (last (chars term)) as [c|] eqn:L.
  - cbn in *. rewrite is_word_lower_char. exact Hlast.
  - apply last_None in L. contradiction.
Qed.

(** C10: a term that ends in a non-word character (as "c++" and "c#" do) is
    not mentioned in a text in which each of its occurrences is followed by
    whitespace, punctuation or the end of the text, the word boundary after
    the term being impossible there; so the extractor finds neither "c++"
    nor "c#" (nor anything else) in "c++ and c# developer". *)
Theorem nonword_ending_term_never_mentioned :
  (forall (term : string) (t : text) (c : ascii),
      last (chars term) = Some c ->
      is_word c = false ->
      (forall pre post, t = pre ++ lower (chars term) ++ post ->
                        break_after post = true) ->
      _skill_mentioned term t = false)
  /\ _skill_mentioned "c++" (lower (chars "c++ and c# developer")) = false
  /\ _skill_mentioned "c#" (lower (chars "c++ and c# developer")) = false
  /\ extract_skills_from_text "c++ and c# developer" = ∅.
Proof.
  split; [|repeat split; vm_compute; reflexivity].
  intros term t c Hlast Hc Hocc.
  apply trailing_nonword_not_mentioned.
  - rewrite Hlast. exact Hc.
  - intros Hnil. rewrite Hnil in Hlast. discriminate Hlast.
  - intros pre post Ht. specialize (Hocc _ _ Ht).
    destruct post as [|a post]; [reflexivity|].
    cbn in *. apply space_or_punct_not_word. exact Hocc.
Qed.

Lemma nonword_ending_term_never_mentioned_witness :
  _skill_mentioned "c++" (chars "i write c++, c++ and c.") = false.
Proof.
  apply (proj1 nonword_ending_term_never_mentioned "c++"
           (chars "i write c++, c++ and c.") "+"%char).
  - reflexivity.
  - reflexivity.
  - apply every_occurrence_spec. vm_compute. reflexivity.
Defined.

(** ** The skill match calculator *)

Close Scope Q_scope.

Lemma sum_list_with_ext {A} (f g : A -> nat) (l : list A) :
  (forall x, x ∈ l -> f x = g x) -> sum_list_with f l = sum_list_with g l.
Proof.
  induction l as [|a l IH]; intros H; [reflexivity|].
  cbn. rewrite (H a) by left. rewrite IH; [reflexivity|].
  intros x Hx. apply H. right. exact Hx.
Qed.

(** The sum of [g] over the values of a dictionary is the sum over any set
    of keys that covers it, absent keys counting for the default. *)
Lemma sum_values_elements {A} (g : A -> nat) (d : A) (m : gmap string A)
    (D : gset string) :
  g d = 0 ->
  dom m ⊆ D ->
  sum_list_with (fun kv => g (snd kv)) (map_to_list m)
  = sum_list_with (fun c => g (default d (m !! c))) (elements D).
Proof.
  intros Hd. revert D. induction m as [|i x m Hi IH] using map_ind; intros D HD.
  - rewrite map_to_list_empty. cbn.
    rewrite (sum_list_with_ext _ (fun _ => 0)).
    + induction (elements D) as [|? ? IHl]; [reflexivity | exact IHl].
    + intros c _. rewrite lookup_empty. exact Hd.
  - rewrite map_to_list_insert by exact Hi. cbn.
    assert (HiD : i ∈ D) by (apply HD; rewrite dom_insert; set_solver).
    assert (ED : D = {[i]} ∪ (D ∖ {[i]}))
      by (apply union_difference_singleton_L; exact HiD).
    rewrite ED at 1.
    rewrite elements_union_singleton by set_solver. cbn.
    rewrite lookup_insert_eq. cbn. f_equal.
    rewrite (IH (D ∖ {[i]})).
    + apply sum_list_with_ext. intros c Hc.
      apply elem_of_elements in Hc.
      rewrite lookup_insert_ne by set_solver. reflexivity.
    + intros c Hc. apply elem_of_difference. split.
      * apply HD. rewrite dom_insert. set_solver.
      * intros Hci. apply elem_of_singleton in Hci. subst c.
        apply elem_of_dom in Hc. rewrite Hi in Hc. destruct Hc as [? Hc].
        discriminate Hc.
Qed.

Section MatchScore.

Variables candidate required : gmap string (list string).

Let step := match_category candidate required.

Lemma step_skip st c :
  skills_at required c = ∅ -> step st c = st.
Proof.
  intros H. unfold step, match_category. cbv zeta.
  destruct (decide (skills_at required c = ∅)); [reflexivity | contradiction].
Qed.

Lemma step_take st c :
  skills_at required c <> ∅ ->
  step st c =
  MatchResult
    (<[c := skills_at candidate c ∩ skills_at required c]> (exact_matches st))
    (partial_matches st)
    (<[c := skills_at required c ∖ skills_at candidate c]> (missing_skills st))
    (<[c := score_at candidate required c]> (category_scores st))
    (SkillMatcher.overall_score st)
    (total_required st + size (skills_at required c))
    (total_matched st
     + size (skills_at candidate c ∩ skills_at required c)).
Proof.
  intros H. unfold step, match_category. cbv zeta.
  destruct (decide (skills_at required c = ∅)); [contradiction | reflexivity].
Qed.

(** The state after the loop has run over the categories [l]. *)
Lemma loop_spec (l : list string) (st : match_result) :
  let st' := foldl step st l in
  (forall c,
      exact_matches st' !! c
      = if decide (c ∈ l /\ skills_at required c <> ∅)
        then Some (skills_at candidate c ∩ skills_at required c)
        else exact_matches st !! c)
  /\ (forall c,
      missing_skills st' !! c
      = if decide (c ∈ l /\ skills_at required c <> ∅)
        then Some (skills_at required c ∖ skills_at candidate c)
        else missing_skills st !! c)
  /\ (forall c,
      category_scores st' !! c
      = if decide (c ∈ l /\ skills_at required c <> ∅)
        then Some (score_at candidate required c)
        else category_scores st !! c)
  /\ total_required st'
     = total_required st
       + sum_list_with (fun c => size (skills_at required c)) l
  /\ total_matched st'
     = total_matched st
       + sum_list_with
           (fun c => size (skills_at candidate c ∩ skills_at required c)) l.
Proof.
  revert st. induction l as [|a l IH]; intros st; cbn [foldl].
  - cbv zeta. repeat split; try (cbn; lia);
      intros c; case_decide as H; try reflexivity;
      destruct H as [H _]; inversion H.
  - specialize (IH (step st a)). cbv zeta in IH |- *.
    destruct IH as (IH1 & IH2 & IH3 & IH4 & IH5).
    destruct (decide (skills_at required a = ∅)) as [Ha|Ha].
    + rewrite step_skip in * by exact Ha.
      assert (Hdec : forall c, (c ∈ a :: l /\ skills_at required c <> ∅)
                               <-> (c ∈ l /\ skills_at required c <> ∅)).
      { intros c. rewrite elem_of_cons. split; [|tauto].
        intros [[->|H] Hne]; [contradiction | tauto]. }
      repeat split.
      * intros c. rewrite IH1. repeat case_decide; try reflexivity;
          exfalso; rewrite Hdec in *; tauto.
      * intros c. rewrite IH2. repeat case_decide; try reflexivity;
          exfalso; rewrite Hdec in *; tauto.
      * intros c. rewrite IH3. repeat case_decide; try reflexivity;
          exfalso; rewrite Hdec in *; tauto.
      * rewrite IH4. cbn. rewrite Ha, size_empty. lia.
      * rewrite IH5. cbn. rewrite Ha.
        replace (skills_at candidate a ∩ ∅) with (∅ : gset string) by set_solver.
        rewrite size_empty. lia.
    + rewrite step_take in * by exact Ha. cbn in IH1, IH2, IH3, IH4, IH5.
      repeat split.
      * intros c. rewrite IH1. lookup_cases c a.
      * intros c. rewrite IH2. lookup_cases c a.
      * intros c. rewrite IH3. lookup_cases c a.
      * rewrite IH4. cbn. lia.
      * rewrite IH5. cbn. lia.
Qed.

End MatchScore.

Lemma required_in_categories (candidate required : gmap string (list string)) c :
  skills_at required c <> ∅ ->
  c ∈ elements (all_categories candidate required).
Proof.
  intros H. unfold all_categories.
  rewrite elem_of_elements, elem_of_union, !elem_of_dom. right.
  unfold skills_at in H.
  destruct (required !! c); [eexists; reflexivity|].
  exfalso. apply H. reflexivity.
Qed.

(** The dictionaries and the counts [calculate_skill_match_score] returns. *)
Lemma match_score_fields (candidate required : gmap string (list string)) :
  let r := calculate_skill_match_score candidate required in
  (forall c,
      exact_matches r !! c
      = if decide (skills_at required c = ∅) then None
        else Some (skills_at candidate c ∩ skills_at required c))
  /\ (forall c,
      missing_skills r !! c
      = if decide (skills_at required c = ∅) then None
        else Some (skills_at required c ∖ skills_at candidate c))
  /\ (forall c,
      category_scores r !! c
      = if decide (skills_at required c = ∅) then None
        else Some (score_at candidate required c))
  /\ total_required r
     = sum_list_with (fun c => size (skills_at required c))
         (elements (all_categories candidate required))
  /\ total_matched r
     = sum_list_with
         (fun c => size (skills_at candidate c ∩ skills_at required c))
         (elements (all_categories candidate required)).
Proof.
  cbv zeta. unfold calculate_skill_match_score. cbv zeta. cbn.
  destruct (loop_spec candidate required
              (elements (all_categories candidate required)) match_init)
    as (H1 & H2 & H3 & H4 & H5).
  repeat split.
  - intros c. rewrite H1. cbn. rewrite lookup_empty.
    repeat case_decide; try reflexivity; exfalso.
    + tauto.
    + apply H. split; [apply required_in_categories|]; assumption.
  - intros c. rewrite H2. cbn. rewrite lookup_empty.
    repeat case_decide; try reflexivity; exfalso.
    + tauto.
    + apply H. split; [apply required_in_categories|]; assumption.
  - intros c. rewrite H3. cbn. rewrite lookup_empty.
    repeat case_decide; try reflexivity; exfalso.
    + tauto.
    + apply H. split; [apply required_in_categories|]; assumption.
  - rewrite H4. reflexivity.
  - rewrite H5. reflexivity.
Qed.

Lemma match_overall_score_eq (candidate required : gmap string (list string)) :
  let r := calculate_skill_match_score candidate required in
  SkillMatcher.overall_score r
  = (if decide (total_required r = 0%nat) then 0
     else Qnat (total_matched r) / Qnat (total_required r) * 100)%Q.
Proof.
  unfold calculate_skill_match_score. cbv zeta. cbn.
  destruct (total_required _) as [|n]; reflexivity.
Qed.

Open Scope Q_scope.

Lemma Qnat_le (a b : nat) : (a <= b)%nat -> Qnat a <= Qnat b.
Proof. intros H. unfold Qnat. rewrite <- Zle_Qle. lia. Qed.

Lemma Qnat_pos (b : nat) : (0 < b)%nat -> 0 < Qnat b.
Proof.
  intros H. unfold Qnat. change 0 with (inject_Z 0). rewrite <- Zlt_Qlt. lia.
Qed.

Lemma percentage_bounds (a b : nat) :
  (a <= b)%nat -> (0 < b)%nat -> 0 <= Qnat a / Qnat b * 100 <= 100.
Proof.
  intros Hab Hb.
  pose proof (Qnat_pos b Hb) as Hpos.
  pose proof (Qnat_le 0 a ltac:(lia)) as Ha0. change (Qnat 0) with 0 in Ha0.
  pose proof (Qnat_le a b Hab) as Hle.
  assert (H0 : 0 <= Qnat a / Qnat b) by (apply Qle_shift_div_l; lra).
  assert (H1 : Qnat a / Qnat b <= 1) by (apply Qle_shift_div_r; lra).
  split; lra.
Qed.

Lemma percentage_mono (a a' b : nat) :
  (a <= a')%nat -> (0 < b)%nat ->
  Qnat a / Qnat b * 100 <= Qnat a' / Qnat b * 100.
Proof.
  intros Haa Hb.
  pose proof (Qnat_pos b Hb) as Hpos.
  pose proof (Qnat_le a a' Haa) as Hle.
  assert (H : Qnat a / Qnat b <= Qnat a' / Qnat b).
  { unfold Qdiv. apply Qmult_le_compat_r; [exact Hle|].
    apply Qlt_le_weak, Qinv_lt_0_compat. exact Hpos. }
  lra.
Qed.

Lemma size_required_pos (required : gmap string (list string)) c :
  skills_at required c <> ∅ -> (0 < size (skills_at required c))%nat.
Proof.
  intros H. apply Nat.neq_0_lt_0. rewrite size_non_empty_iff.
  intros E. apply H. apply leibniz_equiv. exact E.
Qed.

(** C4: [calculate_skill_match_score] leaves out every category whose
    required set is empty and gives every other category its exact matches,
    its missing skills and the score |exact| / |required| x 100; the two
    totals are the sums of the sizes of the exact-match sets and of the
    required sets, and the overall score is matched / required x 100, or 0
    when nothing is required.  For the candidate {python, java} against the
    required {python, javascript} the exact matches are {python}, the
    missing skills {javascript}, and both scores are 50. *)
Theorem skill_match_score_formula (candidate required : gmap string (list string)) :
  let r := calculate_skill_match_score candidate required in
  (forall c,
      exact_matches r !! c
      = if decide (skills_at required c = ∅) then None
        else Some (skills_at candidate c ∩ skills_at required c))
  /\ (forall c,
      missing_skills r !! c
      = if decide (skills_at required c = ∅) then None
        else Some (skills_at required c ∖ skills_at candidate c))
  /\ (forall c,
      category_scores r !! c
      = if decide (skills_at required c = ∅) then None
        else Some (Qnat (size (skills_at candidate c ∩ skills_at required c))
                   / Qnat (size (skills_at required c)) * 100))
  /\ total_matched r
     = sum_list_with (fun kv => size (snd kv)) (map_to_list (exact_matches r))
  /\ total_required r
     = sum_list_with (fun kv => size (list_to_set (C := gset string) (snd kv)))
         (map_to_list required)
  /\ SkillMatcher.overall_score r
     = (if decide (total_required r = 0%nat) then 0
        else Qnat (total_matched r) / Qnat (total_required r) * 100)
  /\ (let e := calculate_skill_match_score example_candidate example_required in
      exact_matches e = {[ "programming_languages" := {[ "python" ]} ]}
      /\ missing_skills e = {[ "programming_languages" := {[ "javascript" ]} ]}
      /\ (exists q, category_scores e !! "programming_languages" = Some q
                    /\ q == 50)
      /\ size (category_scores e) = 1%nat
      /\ SkillMatcher.overall_score e == 50).
Proof.
  cbv zeta.
  destruct (match_score_fields candidate required) as (H1 & H2 & H3 & H4 & H5).
  split; [exact H1|]. split; [exact H2|]. split; [exact H3|].
  split; [|split; [|split]].
  - rewrite H5.
    rewrite (sum_values_elements size ∅ _ (all_categories candidate required)).
    + apply sum_list_with_ext. intros c _. rewrite H1.
      case_decide as E; cbn; [|reflexivity].
      rewrite E. f_equal. set_solver.
    + apply size_empty.
    + intros c Hc. apply elem_of_dom in Hc. rewrite H1 in Hc.
      case_decide as E; [destruct Hc as [? Hc]; discriminate Hc|].
      apply elem_of_elements. apply required_in_categories. exact E.
  - rewrite H4.
    rewrite (sum_values_elements
               (fun l => size (list_to_set (C := gset string) l)) []
               required (all_categories candidate required)).
    + reflexivity.
    + apply size_empty.
    + unfold all_categories. set_solver.
  - apply match_overall_score_eq.
  - repeat split; try (vm_compute; reflexivity).
    eexists. split; [vm_compute; reflexivity|]. vm_compute. reflexivity.
Qed.


Lemma skills_at_add_skill category skill candidate :
  skills_at (add_skill category skill candidate) category
  = skills_at candidate category ∪ {[ skill ]}.
Proof.
  unfold skills_at, add_skill. rewrite lookup_insert_eq. cbn.
  apply list_to_set_snoc_L.
Qed.

(** C8: whatever the candidate and the required skills, adding to the
    candidate's skills of a category a skill that the job requires in that
    category does not lower the score of the category. *)
Theorem adding_required_skill_never_lowers_score
    (candidate required : gmap string (list string)) (category skill : string) :
  skill ∈ skills_at required category ->
  exists q q',
    category_scores (calculate_skill_match_score candidate required) !! category
      = Some q
    /\ category_scores
         (calculate_skill_match_score (add_skill category skill candidate) required)
       !! category = Some q'
    /\ q <= q'.
Proof.
  intros Hin.
  assert (Hne : skills_at required category <> ∅) by set_solver.
  destruct (match_score_fields candidate required) as (_ & _ & H & _).
  destruct (match_score_fields (add_skill category skill candidate) required)
    as (_ & _ & H' & _).
  do 2 eexists. rewrite H, H'.
  destruct (decide (skills_at required category = ∅)); [contradiction|].
  split; [reflexivity|]. split; [reflexivity|].
  unfold score_at. rewrite skills_at_add_skill.
  apply percentage_mono.
  - apply subseteq_size. set_solver.
  - apply size_required_pos. exact Hne.
Qed.

Lemma adding_required_skill_never_lowers_score_witness :
  exists q q',
    category_scores (calculate_skill_match_score example_candidate example_required)
      !! "programming_languages" = Some q
    /\ category_scores
         (calculate_skill_match_score
            (add_skill "programming_languages" "javascript" example_candidate)
            example_required)
       !! "programming_languages" = Some q'
    /\ q <= q'.
Proof.
  apply (adding_required_skill_never_lowers_score
           example_candidate example_required
           "programming_languages" "javascript").
  vm_compute. reflexivity.
Defined.

(** ** Rounding *)

Lemma round_half_even_bounds (x : Q) :
  (Qfloor x <= round_half_even x <= Qfloor x + 1)%Z.
Proof.
  unfold round_half_even.
  destruct (x - inject_Z (Qfloor x) ?= 1 # 2); [destruct (Z.even _)| |]; lia.
Qed.

Lemma round_half_even_le (x : Q) (n : Z) :
  x <= inject_Z n -> (round_half_even x <= n)%Z.
Proof.
  intros H. unfold round_half_even.
  pose proof (Qfloor_le x) as Hf.
  assert (Hfn : (Qfloor x <= n)%Z) by (rewrite Zle_Qle; lra).
  destruct (x - inject_Z (Qfloor x) ?= 1 # 2) eqn:C.
  - apply Qeq_alt in C.
    assert (Hlt : inject_Z (Qfloor x) < inject_Z n) by lra.
    rewrite <- Zlt_Qlt in Hlt. destruct (Z.even _); lia.
  - exact Hfn.
  - apply Qgt_alt in C.
    assert (Hlt : inject_Z (Qfloor x) < inject_Z n) by lra.
    rewrite <- Zlt_Qlt in Hlt. lia.
Qed.

Lemma round_half_even_ge (x : Q) (n : Z) :
  inject_Z n <= x -> (n <= round_half_even x)%Z.
Proof.
  intros H. pose proof (round_half_even_bounds x) as [Hb _].
  assert (Hn : (n <= Qfloor x)%Z).
  { rewrite <- (Qfloor_Z n). apply Qfloor_resp_le. exact H. }
  lia.
Qed.

Lemma round2_range (x : Q) : 0 <= x <= 100 -> 0 <= round2 x <= 100.
Proof.
  intros [H0 H1]. unfold round2.
  assert (Hlo : (0 <= round_half_even (x * 100))%Z)
    by (apply round_half_even_ge; change (inject_Z 0) with 0; lra).
  assert (Hhi : (round_half_even (x * 100) <= 10000)%Z)
    by (apply round_half_even_le; change (inject_Z 10000) with 10000; lra).
  rewrite Zle_Qle in Hlo, Hhi.
  change (inject_Z 0) with 0 in Hlo. change (inject_Z 10000) with 10000 in Hhi.
  split.
  - apply Qle_shift_div_l; lra.
  - apply Qle_shift_div_r; lra.
Qed.

Lemma round2_comp (x y : Q) : x == y -> round2 x = round2 y.
Proof.
  intros H. unfold round2, round_half_even.
  assert (Hm : x * 100 == y * 100) by (rewrite H; reflexivity).
  rewrite (Qfloor_comp _ _ Hm).
  assert (Hc : (x * 100 - inject_Z (Qfloor (y * 100)) ?= 1 # 2)
               = (y * 100 - inject_Z (Qfloor (y * 100)) ?= 1 # 2)).
  { apply Qcompare_comp; [rewrite Hm|]; reflexivity. }
  rewrite Hc. reflexivity.
Qed.

(** ** The skills score *)

(** [calculate_skills_score] by the place where its body stops. *)
Lemma calculate_skills_score_unfold (skill_analysis : value) :
  calculate_skills_score skill_analysis =
  match skill_analysis with
  | VDict d =>
      let exact := default (VDict []) (assoc "exact_matches" d) in
      let missing := default (VDict []) (assoc "missing_skills" d) in
      let overall := default (VInt 0) (assoc "overall_score" d) in
      match py_min_100 overall with
      | inl e => failed "Skills scoring error: " e skills_init
      | inr t =>
          match count_values exact with
          | inl e =>
              failed "Skills scoring error: " e (set_technical_skills t skills_init)
          | inr n_exact =>
              let depth := depth_of_count n_exact in
              match count_values missing with
              | inl e =>
                  failed "Skills scoring error: " e
                    (set_skill_depth depth (set_technical_skills t skills_init))
              | inr n_missing =>
                  let relevance := relevance_of_counts n_exact n_missing in
                  SkillsBreakdown t depth relevance
                    (round2 (t * 0.4 + depth * 0.3 + relevance * 0.3))
                    (Some (SkillsDetails n_exact n_missing
                             (default 0 (as_number overall))))
                    None
              end
          end
      end
  | _ => failed "Skills scoring error: " (no_attribute skill_analysis "get") skills_init
  end.
Proof.
  destruct skill_analysis as [| | | | | |d]; try reflexivity.
  unfold calculate_skills_score, try_except, skills_body.
  unfold mbind, try_bind, lift, assign, py_get, mret, result_ret, try_ret. cbn.
  destruct (py_min_100 _) as [e|t]; [reflexivity|].
  unfold _analyze_skill_depth, _calculate_skill_relevance, py_get,
    mbind, result_bind, mret, result_ret. cbn.
  destruct (count_values (default (VDict []) (assoc "exact_matches" d)))
    as [e|n_exact]; [reflexivity|].
  destruct (count_values (default (VDict []) (assoc "missing_skills" d)))
    as [e|n_missing]; reflexivity.
Qed.


Lemma capped_range (q : Q) : 0 <= q -> 0 <= capped q <= 100.
Proof. intros H. unfold capped. destruct (Qlt_le_dec 100 q); lra. Qed.

Lemma Qnat_nonneg (n : nat) : 0 <= Qnat n.
Proof. change 0 with (Qnat 0). apply Qnat_le. lia. Qed.

Lemma depth_of_count_range (n : nat) : 40 <= depth_of_count n <= 90.
Proof.
  unfold depth_of_count.
  destruct (8 <=? n)%nat; [lra|].
  destruct (5 <=? n)%nat; [lra|].
  destruct (3 <=? n)%nat; lra.
Qed.

(** The cap of [_calculate_skill_relevance] never applies. *)
Lemma relevance_of_counts_eq (n_exact n_missing : nat) :
  relevance_of_counts n_exact n_missing
  = if (n_exact + n_missing =? 0)%nat then 50
    else Qnat n_exact / Qnat (n_exact + n_missing) * 100.
Proof.
  unfold relevance_of_counts.
  destruct (n_exact + n_missing =? 0)%nat eqn:E; [reflexivity|].
  apply Nat.eqb_neq in E.
  destruct (Qlt_le_dec 100 _) as [Hgt|_]; [|reflexivity].
  exfalso.
  pose proof (percentage_bounds n_exact (n_exact + n_missing)
                ltac:(lia) ltac:(lia)) as [_ H].
  lra.
Qed.

Lemma relevance_of_counts_range (n_exact n_missing : nat) :
  0 <= relevance_of_counts n_exact n_missing <= 100.
Proof.
  rewrite relevance_of_counts_eq.
  destruct (n_exact + n_missing =? 0)%nat eqn:E; [lra|].
  apply Nat.eqb_neq in E. apply percentage_bounds; lia.
Qed.

Lemma score_of_years_range (y : Z) : 30 <= score_of_years y <= 100.
Proof.
  unfold score_of_years.
  repeat match goal with |- context [(?a <=? ?b)%Z] => destruct (a <=? b)%Z end;
    lra.
Qed.

Lemma degree_match_range (a b : text) : 30 <= _calculate_degree_match a b <= 100.
Proof.
  unfold _calculate_degree_match.
  destruct (first_degree b); [|lra].
  destruct (first_degree a); [|lra].
  destruct (_ <=? _)%Z; [lra|]. destruct (_ =? _)%Z; lra.
Qed.

Lemma field_relevance_range (a b : text) : 50 <= _calculate_field_relevance a b <= 90.
Proof.
  unfold _calculate_field_relevance.
  destruct (negb _); [lra|]. destruct (any_in _ _); lra.
Qed.

(** ** The experience and the education score *)

Section Factors.

Variable repr : value -> string.

Lemma lower_field_dict d key :
  lower_field repr (VDict d) key = inr (text_of repr d key).
Proof. reflexivity. Qed.

Lemma lower_field_other v key :
  match v with VDict _ => False | _ => True end ->
  lower_field repr v key = inl (no_attribute v "get").
Proof. destruct v; intros H; try reflexivity. contradiction. Qed.

(** [calculate_experience_score] by the place where its body stops. *)
Lemma calculate_experience_score_unfold (experience_analysis resume_data : value) :
  calculate_experience_score repr experience_analysis resume_data =
  match resume_data with
  | VDict d =>
      let work_exp := text_of repr d "work_experience" in
      match total_years_of work_exp with
      | inl e => failed "Experience scoring error: " e experience_init
      | inr total_years =>
          let years := score_of_years total_years in
          let progression :=
            capped (50 + 10 * Qnat (count_in progression_indicators work_exp)) in
          ExperienceBreakdown years 75 70 progression
            (round2 (years * 0.3 + 75 * 0.4 + 70 * 0.2 + progression * 0.1))
            None
      end
  | _ =>
      failed "Experience scoring error: " (no_attribute resume_data "get")
        experience_init
  end.
Proof.
  destruct resume_data as [| | | | | |d]; try reflexivity.
  unfold calculate_experience_score, try_except, experience_body.
  unfold mbind, try_bind, lift, assign, mret, try_ret.
  unfold _calculate_years_score, _calculate_career_progression.
  rewrite lower_field_dict. unfold mbind, result_bind, mret, result_ret.
  cbv zeta. destruct (total_years_of _) as [e|y]; reflexivity.
Qed.

(** [calculate_education_score] by the place where its body stops. *)
Lemma calculate_education_score_unfold (resume_data jd_data : value) :
  calculate_education_score repr resume_data jd_data =
  match resume_data, jd_data with
  | VDict d, VDict j =>
      let education_text := text_of repr d "education" in
      let jd_education := text_of repr j "educational_requirements" in
      let degree := _calculate_degree_match education_text jd_education in
      let field := _calculate_field_relevance education_text jd_education in
      let cert :=
        capped (Qnat (count_in cert_indicators (text_of repr d "achievements")) * 20) in
      EducationBreakdown degree 0 field cert
        (round2 (degree * 0.4 + field * 0.4 + cert * 0.2)) None
  | VDict _, _ =>
      failed "Education scoring error: " (no_attribute jd_data "get") education_init
  | _, _ =>
      failed "Education scoring error: " (no_attribute resume_data "get")
        education_init
  end.
Proof.
  destruct resume_data as [| | | | | |d]; try reflexivity.
  destruct jd_data as [| | | | | |j]; reflexivity.
Qed.

End Factors.

(** ** The skills score of a well-formed analysis *)






(** ** Failure of a score computation *)


(** [calculate_overall_score] has no handler: what the achievements lookup
    raises reaches the caller. *)
Lemma overall_score_raises (repr : value -> string) sk ex ed :
  calculate_overall_score repr __init__ sk ex ed VNone
  = inl (AttributeError "'NoneType' object has no attribute 'get'").
Proof. reflexivity. Qed.



(** ** The range of the scores *)

Lemma sum_list_with_le {A} (f g : A -> nat) (l : list A) :
  (forall x, (f x <= g x)%nat) -> (sum_list_with f l <= sum_list_with g l)%nat.
Proof.
  intros H. induction l as [|a l IH]; [reflexivity|].
  cbn. specialize (H a). lia.
Qed.

Lemma match_overall_score_bounds (candidate required : gmap string (list string)) :
  0 <= SkillMatcher.overall_score
         (calculate_skill_match_score candidate required) <= 100.
Proof.
  destruct (match_score_fields candidate required) as (_ & _ & _ & Hr & Hm).
  rewrite match_overall_score_eq. case_decide as E; [lra|].
  apply percentage_bounds; [|lia].
  rewrite Hr, Hm. apply sum_list_with_le.
  intros c. apply subseteq_size. set_solver.
Qed.








(** * Further properties *)

(** ** The match calculator: exact matches, missing skills and totals *)

Close Scope Q_scope.

Lemma loop_partial_matches (candidate required : gmap string (list string))
    (l : list string) (st : match_result) :
  partial_matches (foldl (match_category candidate required) st l)
  = partial_matches st.
Proof.
  revert st. induction l as [|a l IH]; intros st; [reflexivity|].
  cbn [foldl]. rewrite IH. unfold match_category. cbv zeta.
  destruct (decide (skills_at required a = ∅)); [reflexivity|].
  destruct (decide (skills_at required a = ∅)); reflexivity.
Qed.

(** A sum over the elements of a set only depends on the elements at which
    the summand is not 0. *)
Lemma sum_elements_support (f : string -> nat) (D S : gset string) :
  S ⊆ D ->
  (forall c, c ∉ S -> f c = 0) ->
  sum_list_with f (elements D) = sum_list_with f (elements S).
Proof.
  intros HS Hf.
  assert (ED : D = S ∪ (D ∖ S)).
  { apply set_eq. intros c. rewrite elem_of_union, elem_of_difference.
    destruct (decide (c ∈ S)); set_solver. }
  rewrite ED at 1. rewrite elements_disj_union by set_solver.
  rewrite sum_list_with_app.
  rewrite (sum_list_with_ext f (fun _ => 0) (elements (D ∖ S))).
  - assert (Z : forall l : list string, sum_list_with (fun _ => 0) l = 0)
      by (intros l; induction l as [|? ? IHl]; [reflexivity | exact IHl]).
    rewrite Z. lia.
  - intros c Hc. apply elem_of_elements, elem_of_difference in Hc.
    apply Hf. tauto.
Qed.

(** The categories in which something is required. *)
Definition required_categories (required : gmap string (list string))
    : gset string :=
  filter (fun c => skills_at required c <> ∅) (dom required).

Lemma elem_of_required_categories required c :
  c ∈ required_categories required <-> skills_at required c <> ∅.
Proof.
  unfold required_categories. rewrite elem_of_filter, elem_of_dom.
  split; [tauto|]. intros H. split; [exact H|].
  unfold skills_at in H. destruct (required !! c); [eexists; reflexivity|].
  exfalso. apply H. reflexivity.
Qed.

Lemma required_categories_subseteq candidate required :
  required_categories required ⊆ all_categories candidate required.
Proof.
  intros c Hc. apply elem_of_required_categories in Hc.
  apply elem_of_elements. apply required_in_categories. exact Hc.
Qed.

(** The two totals as sums over the categories in which something is
    required. *)
Lemma match_totals_support (candidate required : gmap string (list string)) :
  let r := calculate_skill_match_score candidate required in
  total_required r
  = sum_list_with (fun c => size (skills_at required c))
      (elements (required_categories required))
  /\ total_matched r
     = sum_list_with
         (fun c => size (skills_at candidate c ∩ skills_at required c))
         (elements (required_categories required)).
Proof.
  cbv zeta.
  destruct (match_score_fields candidate required) as (_ & _ & _ & Hr & Hm).
  rewrite Hr, Hm. split.
  - apply sum_elements_support; [apply required_categories_subseteq|].
    intros c Hc. rewrite elem_of_required_categories in Hc.
    destruct (decide (skills_at required c = ∅)) as [E|E]; [|contradiction].
    rewrite E. apply size_empty.
  - apply sum_elements_support; [apply required_categories_subseteq|].
    intros c Hc. rewrite elem_of_required_categories in Hc.
    destruct (decide (skills_at required c = ∅)) as [E|E]; [|contradiction].
    rewrite E. replace (skills_at candidate c ∩ ∅) with (∅ : gset string)
      by set_solver.
    apply size_empty.
Qed.

(** The result only depends on the required sets and, where something is
    required, on the candidate's sets. *)
Lemma match_score_ext (candidate required candidate' required'
    : gmap string (list string)) :
  (forall c, skills_at required c = skills_at required' c) ->
  (forall c, skills_at required c <> ∅ ->
             skills_at candidate c = skills_at candidate' c) ->
  calculate_skill_match_score candidate required
  = calculate_skill_match_score candidate' required'.
Proof.
  intros HR HC.
  destruct (match_score_fields candidate required) as (E1 & M1 & S1 & _).
  destruct (match_score_fields candidate' required') as (E2 & M2 & S2 & _).
  destruct (match_totals_support candidate required) as (R1 & T1).
  destruct (match_totals_support candidate' required') as (R2 & T2).
  assert (HS : required_categories required = required_categories required').
  { apply set_eq. intros c. rewrite !elem_of_required_categories, HR. tauto. }
  assert (Hem : exact_matches (calculate_skill_match_score candidate required)
                = exact_matches (calculate_skill_match_score candidate' required')).
  { apply map_eq. intros c. rewrite E1, E2, <- HR.
    case_decide as E; [reflexivity|]. rewrite (HC c E). reflexivity. }
  assert (Hms : missing_skills (calculate_skill_match_score candidate required)
                = missing_skills (calculate_skill_match_score candidate' required')).
  { apply map_eq. intros c. rewrite M1, M2, <- HR.
    case_decide as E; [reflexivity|]. rewrite (HC c E). reflexivity. }
  assert (Hcs : category_scores (calculate_skill_match_score candidate required)
                = category_scores (calculate_skill_match_score candidate' required')).
  { apply map_eq. intros c. rewrite S1, S2, <- HR.
    case_decide as E; [reflexivity|]. unfold score_at.
    rewrite (HC c E), <- HR. reflexivity. }
  assert (Htr : total_required (calculate_skill_match_score candidate required)
                = total_required (calculate_skill_match_score candidate' required')).
  { rewrite R1, R2, HS. apply sum_list_with_ext. intros c _. rewrite HR. reflexivity. }
  assert (Htm : total_matched (calculate_skill_match_score candidate required)
                = total_matched (calculate_skill_match_score candidate' required')).
  { rewrite T1, T2, HS. apply sum_list_with_ext. intros c Hc.
    apply elem_of_elements, elem_of_required_categories in Hc.
    rewrite <- HR in Hc. rewrite (HC c Hc), HR. reflexivity. }
  assert (Hpm : forall a b,
             partial_matches (calculate_skill_match_score a b) = ∅).
  { intros a b. unfold calculate_skill_match_score. cbv zeta. cbn.
    rewrite loop_partial_matches. reflexivity. }
  assert (Hov : SkillMatcher.overall_score (calculate_skill_match_score candidate required)
                = SkillMatcher.overall_score
                    (calculate_skill_match_score candidate' required')).
  { rewrite !match_overall_score_eq. cbv zeta. rewrite Htr, Htm. reflexivity. }
  pose proof (Hpm candidate required) as P1.
  pose proof (Hpm candidate' required') as P2.
  destruct (calculate_skill_match_score candidate required).
  destruct (calculate_skill_match_score candidate' required').
  cbn in *. congruence.
Qed.

(** X1: in every category of the result the exact matches and the missing
    skills split the required skills: together they are the required set,
    they share nothing, the candidate has all exact matches and none of the
    missing skills, and the two counts add up to the number required. *)
Theorem exact_and_missing_split_required
    (candidate required : gmap string (list string)) (c : string)
    (exact missing : gset string) :
  let r := calculate_skill_match_score candidate required in
  exact_matches r !! c = Some exact ->
  missing_skills r !! c = Some missing ->
  exact ∪ missing = skills_at required c
  /\ exact ∩ missing = ∅
  /\ exact ⊆ skills_at candidate c
  /\ missing ∩ skills_at candidate c = ∅
  /\ size exact + size missing = size (skills_at required c)
  /\ is_Some (category_scores r !! c).
Proof.
  cbv zeta.
  destruct (match_score_fields candidate required) as (E & M & S & _).
  rewrite E, M, S. case_decide as Hne; [discriminate|].
  intros [= <-] [= <-].
  assert (U : skills_at candidate c ∩ skills_at required c
              ∪ skills_at required c ∖ skills_at candidate c
              = skills_at required c).
  { apply set_eq. intros x.
    rewrite elem_of_union, elem_of_intersection, elem_of_difference.
    destruct (decide (x ∈ skills_at candidate c)); tauto. }
  split; [exact U|]. split; [set_solver|]. split; [set_solver|].
  split; [set_solver|]. split; [|eexists; reflexivity].
  rewrite <- size_union by set_solver. rewrite U. reflexivity.
Qed.

Lemma exact_and_missing_split_required_witness :
  ({[ "python" ]} : gset string) ∪ {[ "javascript" ]}
  = skills_at example_required "programming_languages".
Proof.
  apply (exact_and_missing_split_required example_candidate example_required
           "programming_languages" {[ "python" ]} {[ "javascript" ]}).
  - vm_compute. reflexivity.
  - vm_compute. reflexivity.
Defined.

Open Scope Q_scope.

Lemma percentage_full (n : nat) : (0 < n)%nat -> Qnat n / Qnat n * 100 == 100.
Proof.
  intros H. pose proof (Qnat_pos n H) as Hp. field. intros E; lra.
Qed.

(** X2: a dictionary matched against itself: when it holds at least one
    skill the overall score is 100, every category score is 100, and no
    skill is missing in any category. *)
Theorem identical_skills_score_100 (skills : gmap string (list string)) (c0 : string) :
  let r := calculate_skill_match_score skills skills in
  skills_at skills c0 <> ∅ ->
  SkillMatcher.overall_score r == 100
  /\ total_matched r = total_required r
  /\ (forall c q, category_scores r !! c = Some q -> q == 100)
  /\ (forall c missing, missing_skills r !! c = Some missing -> missing = ∅).
Proof.
  cbv zeta. intros Hne.
  destruct (match_score_fields skills skills) as (_ & M & S & _).
  destruct (match_totals_support skills skills) as (R & T).
  assert (Heq : total_matched (calculate_skill_match_score skills skills)
                = total_required (calculate_skill_match_score skills skills)).
  { rewrite R, T. apply sum_list_with_ext. intros c _. f_equal. set_solver. }
  assert (Hpos : (0 < total_required (calculate_skill_match_score skills skills))%nat).
  { rewrite R.
    assert (Hin : c0 ∈ elements (required_categories skills))
      by (apply elem_of_elements, elem_of_required_categories; exact Hne).
    pose proof (sum_list_with_in c0 (fun c => size (skills_at skills c)) _ Hin) as Hle.
    pose proof (size_required_pos skills c0 Hne). cbv beta in Hle. lia. }
  split; [|split; [exact Heq|split]].
  - rewrite match_overall_score_eq. cbv zeta. case_decide as E; [lia|].
    rewrite Heq. apply percentage_full. exact Hpos.
  - intros c q. rewrite S. case_decide as E; [discriminate|]. intros [= <-].
    unfold score_at.
    replace (skills_at skills c ∩ skills_at skills c) with (skills_at skills c)
      by set_solver.
    apply percentage_full. apply size_required_pos. exact E.
  - intros c missing. rewrite M. case_decide as E; [discriminate|].
    intros [= <-]. set_solver.
Qed.

Lemma identical_skills_score_100_witness :
  SkillMatcher.overall_score
    (calculate_skill_match_score example_required example_required) == 100.
Proof.
  apply (identical_skills_score_100 example_required "programming_languages").
  vm_compute. discriminate.
Defined.

Lemma Qnat_inj (a b : nat) : Qnat a == Qnat b -> a = b.
Proof.
  unfold Qnat, Qeq. cbn. lia.
Qed.

Lemma percentage_eq_100 (a b : nat) :
  (0 < b)%nat -> (Qnat a / Qnat b * 100 == 100 <-> a = b).
Proof.
  intros Hb. pose proof (Qnat_pos b Hb) as Hp. split.
  - intros H. apply Qnat_inj.
    assert (H1 : Qnat a / Qnat b == 1) by lra.
    assert (Hb0 : ~ Qnat b == 0) by (intros E; lra).
    rewrite <- (Qmult_div_r (Qnat a) (Qnat b) Hb0).
    unfold Qdiv in *. rewrite H1. ring.
  - intros ->. apply percentage_full. exact Hb.
Qed.

Lemma percentage_eq_0 (a b : nat) :
  (0 < b)%nat -> (Qnat a / Qnat b * 100 == 0 <-> a = 0%nat).
Proof.
  intros Hb. pose proof (Qnat_pos b Hb) as Hp. split.
  - intros H. apply Qnat_inj. change (Qnat 0) with 0.
    assert (H1 : Qnat a / Qnat b == 0) by lra.
    assert (Hb0 : ~ Qnat b == 0) by (intros E; lra).
    rewrite <- (Qmult_div_r (Qnat a) (Qnat b) Hb0).
    unfold Qdiv in *. rewrite H1. ring.
  - intros ->. change (Qnat 0) with 0. field. intros E; lra.
Qed.

Lemma sums_equal_pointwise {A} (f g : A -> nat) (l : list A) :
  (forall x, (f x <= g x)%nat) ->
  sum_list_with f l = sum_list_with g l ->
  forall x, x ∈ l -> f x = g x.
Proof.
  intros Hle. induction l as [|a l IH]; intros Hs x Hx; [inversion Hx|].
  cbn in Hs. pose proof (sum_list_with_le f g l Hle) as Hl.
  pose proof (Hle a) as Ha.
  apply elem_of_cons in Hx. destruct Hx as [->|Hx]; [lia|].
  apply IH; [lia | exact Hx].
Qed.

Lemma sum_zero_pointwise {A} (f : A -> nat) (l : list A) :
  sum_list_with f l = 0%nat <-> forall x, x ∈ l -> f x = 0%nat.
Proof.
  induction l as [|a l IH]; cbn.
  - split; [intros _ x Hx; inversion Hx | reflexivity].
  - split.
    + intros H x Hx. apply elem_of_cons in Hx. destruct Hx as [->|Hx]; [lia|].
      apply IH; [lia | exact Hx].
    + intros H. rewrite (H a) by left. apply IH. intros x Hx. apply H.
      right. exact Hx.
Qed.

(** X3: when something is required, the overall score is 100 exactly when
    no skill is missing in any category, and it is 0 exactly when no
    category has an exact match. *)
Theorem overall_score_extremes (candidate required : gmap string (list string)) :
  let r := calculate_skill_match_score candidate required in
  (0 < total_required r)%nat ->
  (SkillMatcher.overall_score r == 100
   <-> forall c missing, missing_skills r !! c = Some missing -> missing = ∅)
  /\ (SkillMatcher.overall_score r == 0
      <-> forall c exact, exact_matches r !! c = Some exact -> exact = ∅).
Proof.
  cbv zeta. intros Hpos.
  destruct (match_score_fields candidate required) as (E & M & _).
  destruct (match_totals_support candidate required) as (R & T).
  rewrite match_overall_score_eq. cbv zeta.
  case_decide as Hz; [lia|]. split.
  - rewrite percentage_eq_100 by exact Hpos. rewrite R, T. split.
    + intros Hs c missing. rewrite M. case_decide as Hne; [discriminate|].
      intros [= <-].
      assert (Hc : c ∈ elements (required_categories required))
        by (apply elem_of_elements, elem_of_required_categories; exact Hne).
      pose proof (sums_equal_pointwise _ _ _
                    (fun c => subseteq_size _ _
                       (intersection_subseteq_r (skills_at candidate c)
                                                (skills_at required c)))
                    Hs c Hc) as Hsz.
      cbv beta in Hsz.
      assert (Hsub : skills_at candidate c ∩ skills_at required c
                     = skills_at required c).
      { apply set_subseteq_size_eq; [set_solver | lia]. }
      set_solver.
    + intros Hm. apply sum_list_with_ext. intros c Hc.
      apply elem_of_elements, elem_of_required_categories in Hc.
      specialize (Hm c (skills_at required c ∖ skills_at candidate c)).
      rewrite M in Hm. destruct (decide (skills_at required c = ∅)); [contradiction|].
      specialize (Hm eq_refl). f_equal.
      apply set_eq. intros x. rewrite elem_of_intersection.
      split; [tauto|]. intros Hx. split; [|exact Hx].
      destruct (decide (x ∈ skills_at candidate c)) as [Hin|Hout]; [exact Hin|].
      exfalso. apply (not_elem_of_empty (C := gset string) x).
      rewrite <- Hm. apply elem_of_difference. tauto.
  - rewrite percentage_eq_0 by exact Hpos. rewrite T, sum_zero_pointwise. split.
    + intros Hs c exact. rewrite E. case_decide as Hne; [discriminate|].
      intros [= <-].
      assert (Hc : c ∈ elements (required_categories required))
        by (apply elem_of_elements, elem_of_required_categories; exact Hne).
      specialize (Hs c Hc). cbv beta in Hs. apply size_empty_iff in Hs.
      apply leibniz_equiv. exact Hs.
    + intros He c Hc.
      apply elem_of_elements, elem_of_required_categories in Hc.
      specialize (He c (skills_at candidate c ∩ skills_at required c)).
      rewrite E in He. destruct (decide (skills_at required c = ∅)); [contradiction|].
      rewrite (He eq_refl). apply size_empty.
Qed.

Lemma overall_score_extremes_witness :
  SkillMatcher.overall_score
    (calculate_skill_match_score example_required example_required) == 100
  <-> forall c missing,
        missing_skills (calculate_skill_match_score example_required example_required)
          !! c = Some missing -> missing = ∅.
Proof.
  apply (overall_score_extremes example_required example_required).
  vm_compute. lia.
Defined.

Close Scope Q_scope.

(** X4: what the candidate has in a category in which nothing is required
    does not change the result. *)
Theorem unrequired_category_is_ignored
    (candidate required : gmap string (list string)) (c : string) (l : list string) :
  skills_at required c = ∅ ->
  calculate_skill_match_score (<[c := l]> candidate) required
  = calculate_skill_match_score candidate required.
Proof.
  intros Hc. apply match_score_ext; [reflexivity|].
  intros c' Hne. unfold skills_at.
  rewrite lookup_insert_ne; [reflexivity|]. intros ->. contradiction.
Qed.

Lemma unrequired_category_is_ignored_witness :
  calculate_skill_match_score
    (<["databases" := ["mysql"; "redis"]]> example_candidate) example_required
  = calculate_skill_match_score example_candidate example_required.
Proof.
  apply (unrequired_category_is_ignored example_candidate example_required
           "databases" ["mysql"; "redis"]).
  vm_compute. reflexivity.
Defined.

(** X5: the lists are compared as sets: rewriting every list of both
    dictionaries in a way that keeps its elements (another order,
    repetitions added or removed) does not change the result. *)
Theorem skill_lists_compared_as_sets
    (candidate required : gmap string (list string))
    (f : list string -> list string) :
  (forall l, list_to_set (C := gset string) (f l) = list_to_set l) ->
  calculate_skill_match_score (f <$> candidate) (f <$> required)
  = calculate_skill_match_score candidate required.
Proof.
  intros Hf.
  assert (H : forall (m : gmap string (list string)) c,
             skills_at (f <$> m) c = skills_at m c).
  { intros m c. unfold skills_at. rewrite lookup_fmap.
    destruct (m !! c) as [l|]; cbn; [apply Hf | reflexivity]. }
  apply match_score_ext; intros c; rewrite ?H; reflexivity.
Qed.

Lemma skill_lists_compared_as_sets_witness :
  calculate_skill_match_score (reverse <$> example_candidate)
                              (reverse <$> example_required)
  = calculate_skill_match_score example_candidate example_required.
Proof.
  apply (skill_lists_compared_as_sets example_candidate example_required reverse).
  intros l. apply set_eq. intros x.
  rewrite !elem_of_list_to_set, elem_of_reverse. reflexivity.
Defined.

(** ** The extractor: what its result looks like *)

(** The skills the table [cats] lists under the name [c]. *)
Fixpoint listed_under (c : string) (cats : list (string * list string))
    : list string :=
  match cats with
  | [] => []
  | (c0, skills) :: rest =>
      (if decide (c0 = c) then skills else []) ++ listed_under c rest
  end.

Definition values_nonempty (fs : gmap string (list string)) : Prop :=
  forall c l, fs !! c = Some l -> l <> [].

Definition values_nodup (fs : gmap string (list string)) : Prop :=
  forall c, NoDup (found_in fs c).

Lemma found_append_nonempty c s fs :
  values_nonempty fs -> values_nonempty (found_append c s fs).
Proof.
  intros H c' l. unfold found_append.
  destruct (decide (c' = c)) as [->|Hne].
  - rewrite lookup_insert_eq. intros [= <-]. intros E.
    apply app_eq_nil in E. destruct E as [_ E]. discriminate E.
  - rewrite lookup_insert_ne by congruence. apply H.
Qed.

Lemma found_append_nodup c s fs :
  s ∉ found_in fs c -> values_nodup fs -> values_nodup (found_append c s fs).
Proof.
  intros Hs H c'. rewrite found_in_append. case_decide as E; [|apply H].
  apply NoDup_app. split; [apply H|]. split; [|apply NoDup_singleton].
  intros x Hx Hx'. apply list_elem_of_singleton in Hx'. subst x. contradiction.
Qed.

Section ExtractShape.

Variable t : text.

Lemma check_category_nonempty fs cs :
  values_nonempty fs -> values_nonempty (check_category t fs cs).
Proof.
  unfold check_category. revert fs.
  induction (snd cs) as [|a skills IH]; intros fs H; cbn [foldl]; [exact H|].
  apply IH. destruct (_skill_mentioned a t); [|exact H].
  apply found_append_nonempty. exact H.
Qed.

Lemma record_main_nonempty main cats fs :
  values_nonempty fs -> values_nonempty (record_main main cats fs).
Proof.
  intros H. induction cats as [|[c0 skills0] cats IH]; cbn [record_main]; [exact H|].
  destruct (bool_decide (main ∈ skills0)); [|exact IH].
  destruct (bool_decide (main ∈ found_in fs c0)); [exact H|].
  apply found_append_nonempty. exact H.
Qed.

Lemma record_main_nodup main cats fs :
  values_nodup fs -> values_nodup (record_main main cats fs).
Proof.
  intros H. induction cats as [|[c0 skills0] cats IH]; cbn [record_main]; [exact H|].
  destruct (bool_decide (main ∈ skills0)); [|exact IH].
  case_bool_decide as Hin; [exact H|].
  apply found_append_nodup; assumption.
Qed.

Lemma check_synonyms_keeps (P : gmap string (list string) -> Prop) fs ms :
  (forall main fs', P fs' -> P (record_main main skill_categories fs')) ->
  P fs -> P (check_synonyms t fs ms).
Proof.
  intros HP. unfold check_synonyms. revert fs.
  induction (snd ms) as [|a syns IH]; intros fs H; cbn [foldl]; [exact H|].
  apply IH. destruct (_skill_mentioned a t); [apply HP|]; exact H.
Qed.

Lemma foldl_keeps {A B} (P : A -> Prop) (f : A -> B -> A) (l : list B) (a : A) :
  (forall x b, P x -> P (f x b)) -> P a -> P (foldl f a l).
Proof.
  intros Hf. revert a. induction l as [|b l IH]; intros a H; [exact H|].
  cbn [foldl]. apply IH, Hf, H.
Qed.

Lemma check_category_found fs c skills c' :
  found_in (check_category t fs (c, skills)) c'
  = if decide (c' = c)
    then found_in fs c ++ filter (fun s => _skill_mentioned s t = true) skills
    else found_in fs c'.
Proof.
  unfold check_category. cbn [fst snd].
  revert fs. induction skills as [|a skills IH]; intros fs; cbn [foldl].
  - case_decide as E; [subst c'; rewrite app_nil_r|]; reflexivity.
  - rewrite IH. destruct (_skill_mentioned a t) eqn:M.
    + rewrite !found_in_append. rewrite filter_cons_True by exact M.
      repeat case_decide; try congruence.
      rewrite <- app_assoc. reflexivity.
    + rewrite filter_cons_False by congruence. reflexivity.
Qed.

Lemma first_loop_found cats fs c :
  found_in (foldl (check_category t) fs cats) c
  = found_in fs c
    ++ filter (fun s => _skill_mentioned s t = true) (listed_under c cats).
Proof.
  revert fs. induction cats as [|[c0 skills0] cats IH]; intros fs; cbn [foldl].
  - cbn. rewrite app_nil_r. reflexivity.
  - rewrite IH, check_category_found. cbn [listed_under].
    rewrite filter_app. case_decide as E.
    + subst c0. destruct (decide (c = c)); [|contradiction].
      rewrite app_assoc. reflexivity.
    + destruct (decide (c0 = c)); [congruence|].
      rewrite filter_nil. reflexivity.
Qed.

End ExtractShape.

Lemma listed_under_sublist c cats :
  listed_under c cats `sublist_of` concat (map snd cats).
Proof.
  induction cats as [|[c0 skills0] cats IH]; cbn; [constructor|].
  apply sublist_app; [|exact IH].
  case_decide; [reflexivity | apply sublist_nil_l].
Qed.

Lemma taxonomy_skills_nodup : NoDup (concat (map snd skill_categories)).
Proof. apply (bool_decide_unpack _). vm_compute. exact I. Qed.

Lemma listed_categories_of :
  Forall (fun cs => Forall (fun s => categories_of s = [fst cs]) (snd cs))
         skill_categories.
Proof. apply (bool_decide_unpack _). vm_compute. exact I. Qed.

Lemma first_category_categories_of skill c :
  first_category skill skill_categories = Some c -> categories_of skill = [c].
Proof.
  unfold first_category. destruct (List.find _ _) as [[c0 skills0]|] eqn:F;
    [|discriminate].
  intros [= <-]. apply find_some in F. destruct F as [Hin Hs].
  apply bool_decide_eq_true in Hs. cbn in Hs.
  pose proof listed_categories_of as H.
  rewrite Forall_forall in H. apply list_elem_of_In in Hin.
  specialize (H _ Hin). rewrite Forall_forall in H. apply (H _ Hs).
Qed.

Lemma extract_values_nonempty (txt : string) :
  values_nonempty (extract_skills_from_text txt).
Proof.
  unfold extract_skills_from_text. cbv zeta.
  apply (foldl_keeps values_nonempty).
  - intros fs ms H. apply check_synonyms_keeps; [|exact H].
    intros main fs'. apply record_main_nonempty.
  - apply (foldl_keeps values_nonempty).
    + intros fs cs. apply check_category_nonempty.
    + intros c l H. rewrite lookup_empty in H. discriminate H.
Qed.

Lemma extract_values_nodup (txt : string) :
  values_nodup (extract_skills_from_text txt).
Proof.
  unfold extract_skills_from_text. cbv zeta.
  apply (foldl_keeps values_nodup).
  - intros fs ms H. apply check_synonyms_keeps; [|exact H].
    intros main fs'. apply record_main_nodup.
  - intros c'. rewrite first_loop_found.
    unfold found_in at 1. rewrite lookup_empty. cbn [default from_option app].
    apply NoDup_filter.
    apply (sublist_NoDup _ _ taxonomy_skills_nodup).
    apply listed_under_sublist.
Qed.

(** X6: every list of the extractor's result is non-empty and free of
    repetitions, and each skill in it is a canonical skill that the
    taxonomy lists under that category and under no other. *)
Theorem extracted_lists_are_canonical (txt : string) (c : string) (l : list string) :
  extract_skills_from_text txt !! c = Some l ->
  l <> [] /\ NoDup l /\ Forall (fun s => categories_of s = [c]) l.
Proof.
  intros Hl.
  assert (Hf : found_in (extract_skills_from_text txt) c = l)
    by (unfold found_in; rewrite Hl; reflexivity).
  split; [|split].
  - apply (extract_values_nonempty txt c l Hl).
  - rewrite <- Hf. apply extract_values_nodup.
  - rewrite Forall_forall. intros s Hs. rewrite <- Hf in Hs.
    apply extract_skills_spec in Hs.
    destruct Hs as [(skills & Hin & Hs & _)|(Hfc & _)].
    + pose proof listed_categories_of as H. rewrite Forall_forall in H.
      specialize (H _ Hin). rewrite Forall_forall in H. apply (H _ Hs).
    + apply first_category_categories_of. exact Hfc.
Qed.

Lemma extracted_lists_are_canonical_witness :
  ["javascript"] <> [] /\ NoDup ["javascript"]
  /\ Forall (fun s => categories_of s = ["programming_languages"]) ["javascript"].
Proof.
  apply (extracted_lists_are_canonical "javascript developer").
  vm_compute. reflexivity.
Defined.

Lemma searched_terms_start_with_word :
  Forall (fun s => word_after (lower (chars s)) = true) searched_terms.
Proof. apply (bool_decide_unpack _). vm_compute. exact I. Qed.

Lemma listed_skill_searched c skills s :
  (c, skills) ∈ skill_categories -> s ∈ skills -> s ∈ searched_terms.
Proof.
  intros Hc Hs. unfold searched_terms. apply elem_of_app. left.
  apply list_elem_of_In, in_concat. exists skills. split.
  - apply in_map_iff. exists (c, skills). split; [reflexivity|].
    apply list_elem_of_In. exact Hc.
  - apply list_elem_of_In. exact Hs.
Qed.

Lemma synonym_searched k synonyms s :
  (k, synonyms) ∈ skill_synonyms -> s ∈ synonyms -> s ∈ searched_terms.
Proof.
  intros Hc Hs. unfold searched_terms. apply elem_of_app. right.
  apply list_elem_of_In, in_concat. exists synonyms. split.
  - apply in_map_iff. exists (k, synonyms). split; [reflexivity|].
    apply list_elem_of_In. exact Hc.
  - apply list_elem_of_In. exact Hs.
Qed.

(** A term that begins with a word character is not mentioned in a text
    without word characters. *)
Lemma not_mentioned_without_words term t :
  word_after (lower (chars term)) = true ->
  Forall (fun c => is_word c = false) t ->
  _skill_mentioned term t = false.
Proof.
  intros Hw Ht. destruct (_skill_mentioned term t) eqn:M; [|reflexivity].
  apply skill_mentioned_spec in M. destruct M as (pre & post & -> & _).
  destruct (lower (chars term)) as [|a w]; [discriminate Hw|].
  cbn in Hw. rewrite Forall_app in Ht. destruct Ht as [_ Ht].
  apply Forall_cons in Ht. destruct Ht as [Ha _]. congruence.
Qed.

(** X7: a text without any letter, digit or underscore (the empty text
    among them) yields the empty dictionary. *)
Theorem nothing_extracted_without_words (txt : string) :
  Forall (fun c => is_word c = false) (chars txt) ->
  extract_skills_from_text txt = ∅.
Proof.
  intros Ht.
  assert (Hl : Forall (fun c => is_word c = false) (lower (chars txt))).
  { unfold lower. rewrite Forall_forall in Ht |- *. intros c Hc.
    apply list_elem_of_In, in_map_iff in Hc. destruct Hc as (c0 & <- & Hc0).
    rewrite is_word_lower_char. apply Ht, list_elem_of_In. exact Hc0. }
  assert (Hno : forall s, s ∈ searched_terms ->
                          _skill_mentioned s (lower (chars txt)) = false).
  { intros s Hs. apply not_mentioned_without_words; [|exact Hl].
    pose proof searched_terms_start_with_word as H.
    rewrite Forall_forall in H. apply H. exact Hs. }
  apply map_empty. intros c.
  destruct (extract_skills_from_text txt !! c) as [l|] eqn:E; [|reflexivity].
  exfalso. pose proof (extract_values_nonempty txt c l E) as Hne.
  destruct l as [|s l]; [contradiction|].
  assert (Hs : s ∈ found_in (extract_skills_from_text txt) c)
    by (unfold found_in; rewrite E; left).
  apply extract_skills_spec in Hs.
  destruct Hs as [(skills & Hin & Hs & M)|(_ & syns & syn & Hin & Hs & M)].
  - rewrite (Hno s) in M; [discriminate M|].
    eapply listed_skill_searched; eassumption.
  - rewrite (Hno syn) in M; [discriminate M|].
    eapply synonym_searched; eassumption.
Qed.

Lemma nothing_extracted_without_words_witness :
  extract_skills_from_text "+ (#) ... -> ?" = ∅.
Proof.
  apply (nothing_extracted_without_words "+ (#) ... -> ?").
  apply (bool_decide_unpack _). vm_compute. exact I.
Defined.

Lemma synonym_keys_with_category :
  Forall (fun ks => first_category (fst ks) skill_categories = None
                    \/ fst ks ∈ categorised_keys)
         skill_synonyms.
Proof. apply (bool_decide_unpack _). vm_compute. exact I. Qed.

(** X8: a skill that the extractor records although the skill itself is
    not mentioned was found through one of its alternate forms, and it is
    one of javascript, typescript, python, postgresql, mongodb and
    kubernetes: the alternate forms of the other synonym entries never add
    anything to the result. *)
Theorem skills_found_through_synonyms (txt : string) (c skill : string) :
  skill ∈ found_in (extract_skills_from_text txt) c ->
  _skill_mentioned skill (lower (chars txt)) = false ->
  skill ∈ categorised_keys
  /\ exists synonyms synonym,
       (skill, synonyms) ∈ skill_synonyms /\ synonym ∈ synonyms
       /\ _skill_mentioned synonym (lower (chars txt)) = true.
Proof.
  intros Hs Hno. apply extract_skills_spec in Hs.
  destruct Hs as [(skills & _ & _ & M)|(Hfc & syns & syn & Hin & Hsyn & M)];
    [congruence|].
  split; [|exists syns, syn; tauto].
  pose proof synonym_keys_with_category as H. rewrite Forall_forall in H.
  destruct (H _ Hin) as [Hnone|Hkey]; [|exact Hkey].
  cbn in Hnone. congruence.
Qed.

Lemma skills_found_through_synonyms_witness :
  "kubernetes" ∈ categorised_keys
  /\ exists synonyms synonym,
       ("kubernetes", synonyms) ∈ skill_synonyms /\ synonym ∈ synonyms
       /\ _skill_mentioned synonym (lower (chars "We run K8s and ML jobs")) = true.
Proof.
  apply (skills_found_through_synonyms "We run K8s and ML jobs"
           "cloud_platforms" "kubernetes").
  - vm_compute. set_solver.
  - vm_compute. reflexivity.
Defined.

(** ** The skills score of a match result *)

(** The dictionary [calculate_skill_match_score] returns, as the value that
    [run_analysis] and the tests hand to [calculate_skills_score]: the sets
    of exact matches and of missing skills have become lists. *)
Definition sets_dict (m : gmap string (gset string)) : value :=
  VDict (map (fun kv => (fst kv, VList (map VStr (elements (snd kv)))))
             (map_to_list m)).

Definition scores_dict (m : gmap string Q) : value :=
  VDict (map (fun kv => (fst kv, VFloat (snd kv))) (map_to_list m)).

Definition match_to_value (r : match_result) : value :=
  VDict [("exact_matches", sets_dict (exact_matches r));
         ("partial_matches", sets_dict (partial_matches r));
         ("missing_skills", sets_dict (missing_skills r));
         ("category_scores", scores_dict (category_scores r));
         ("overall_score", VFloat (SkillMatcher.overall_score r));
         ("total_required", VInt (Z.of_nat (total_required r)));
         ("total_matched", VInt (Z.of_nat (total_matched r)))].

Lemma count_values_sets_dict (m : gmap string (gset string)) :
  count_values (sets_dict m)
  = inr (sum_list_with (fun kv => size (snd kv)) (map_to_list m)).
Proof.
  unfold count_values, sets_dict, py_values, mbind, result_bind, mret, result_ret.
  induction (map_to_list m) as [|[k s] l IH]; [reflexivity|].
  cbn [map sum_len py_len fst snd]. unfold mbind, result_bind, mret, result_ret.
  rewrite IH. cbn [sum_list_with snd]. rewrite length_map. reflexivity.
Qed.

Lemma sum_list_with_add {A} (f g : A -> nat) (l : list A) :
  sum_list_with (fun x => f x + g x) l = sum_list_with f l + sum_list_with g l.
Proof. induction l as [|a l IH]; cbn; [reflexivity | rewrite IH; lia]. Qed.

(** The exact matches of a result number [total_matched], the missing
    skills the rest of [total_required]. *)
Lemma match_counts (candidate required : gmap string (list string)) :
  let r := calculate_skill_match_score candidate required in
  sum_list_with (fun kv => size (snd kv)) (map_to_list (exact_matches r))
  = total_matched r
  /\ sum_list_with (fun kv => size (snd kv)) (map_to_list (missing_skills r))
     + total_matched r
     = total_required r.
Proof.
  cbv zeta.
  destruct (match_score_fields candidate required) as (E & M & _ & Hr & Hm).
  assert (Hdom : forall (m : gmap string (gset string)),
             (forall c, is_Some (m !! c) -> skills_at required c <> ∅) ->
             dom m ⊆ all_categories candidate required).
  { intros m H c Hc. apply elem_of_dom in Hc.
    apply elem_of_elements, required_in_categories, H, Hc. }
  rewrite (sum_values_elements size ∅ _ (all_categories candidate required)
             size_empty);
    [|apply Hdom; intros c [x Hx]; rewrite E in Hx;
      case_decide; [discriminate | assumption]].
  rewrite (sum_values_elements size ∅ (missing_skills _)
             (all_categories candidate required) size_empty);
    [|apply Hdom; intros c [x Hx]; rewrite M in Hx;
      case_decide; [discriminate | assumption]].
  rewrite Hr, Hm. split.
  - apply sum_list_with_ext. intros c _. rewrite E.
    case_decide as Hc; cbn; [|reflexivity].
    rewrite Hc. f_equal. set_solver.
  - rewrite <- sum_list_with_add. apply sum_list_with_ext. intros c _.
    rewrite M. case_decide as Hc; cbn.
    + rewrite Hc. replace (skills_at candidate c ∩ ∅) with (∅ : gset string)
        by set_solver. rewrite !size_empty. reflexivity.
    + rewrite <- size_union by set_solver. f_equal.
      apply set_eq. intros x.
      rewrite elem_of_union, elem_of_difference, elem_of_intersection.
      destruct (decide (x ∈ skills_at candidate c)); tauto.
Qed.

Open Scope Q_scope.

(** X9: the skills score of a match result never fails; its counts are the
    two totals of the match.  When something is required, the technical
    and the relevance sub-score are both the overall match score, so the
    total is 0.7 x the match score + 0.3 x the depth, rounded; when nothing
    is required the total is 27. *)
Theorem skills_score_of_match (candidate required : gmap string (list string)) :
  let r := calculate_skill_match_score candidate required in
  let b := calculate_skills_score (match_to_value r) in
  error b = None
  /\ skills_details_of b
     = Some (SkillsDetails (total_matched r)
               (total_required r - total_matched r)
               (SkillMatcher.overall_score r))
  /\ skill_depth b = depth_of_count (total_matched r)
  /\ technical_skills b = SkillMatcher.overall_score r
  /\ skill_relevance b
     = (if decide (total_required r = 0%nat) then 50
        else SkillMatcher.overall_score r)
  /\ total_score b
     == (if decide (total_required r = 0%nat) then 27
         else round2 (0.7 * SkillMatcher.overall_score r
                      + 0.3 * depth_of_count (total_matched r)))
  /\ 0 <= total_score b <= 100.
Proof.
  cbv zeta.
  destruct (match_counts candidate required) as (He & Hm).
  pose proof (match_overall_score_bounds candidate required) as Hb.
  pose proof (match_overall_score_eq candidate required) as Ho. cbv zeta in Ho.
  set (r := calculate_skill_match_score candidate required) in *.
  assert (Hmiss : sum_list_with (fun kv => size (snd kv))
                    (map_to_list (missing_skills r))
                  = (total_required r - total_matched r)%nat) by lia.
  assert (Hle : (total_matched r <= total_required r)%nat) by lia.
  assert (Hs : calculate_skills_score (match_to_value r)
               = SkillsBreakdown (SkillMatcher.overall_score r)
                   (depth_of_count (total_matched r))
                   (relevance_of_counts (total_matched r)
                      (total_required r - total_matched r))
                   (round2 (SkillMatcher.overall_score r * 0.4
                            + depth_of_count (total_matched r) * 0.3
                            + relevance_of_counts (total_matched r)
                                (total_required r - total_matched r) * 0.3))
                   (Some (SkillsDetails (total_matched r)
                            (total_required r - total_matched r)
                            (SkillMatcher.overall_score r)))
                   None).
  { rewrite calculate_skills_score_unfold. unfold match_to_value.
    cbn [assoc String.eqb Ascii.eqb Bool.eqb default from_option id].
    cbv zeta. cbn [py_min_100 as_number mret result_ret].
    rewrite !count_values_sets_dict, He, Hmiss.
    destruct (Qlt_le_dec 100 (SkillMatcher.overall_score r)) as [Hgt|_];
      [exfalso; lra | reflexivity]. }
  assert (Hrel : relevance_of_counts (total_matched r)
                   (total_required r - total_matched r)
                 = if decide (total_required r = 0%nat) then 50
                   else SkillMatcher.overall_score r).
  { rewrite relevance_of_counts_eq.
    replace (total_matched r + (total_required r - total_matched r))%nat
      with (total_required r) by lia.
    rewrite Ho. destruct (total_required r) as [|n]; reflexivity. }
  rewrite Hs. cbn [error total_score skills_is_breakdown skills_error
                   skills_total skills_details_of skill_depth technical_skills
                   skill_relevance].
  rewrite Hrel.
  split; [reflexivity|]. split; [reflexivity|]. split; [reflexivity|].
  split; [reflexivity|]. split; [reflexivity|]. split.
  - case_decide as Hz.
    + assert (Hm0 : total_matched r = 0%nat) by lia.
      rewrite Ho, Hm0. vm_compute. reflexivity.
    + rewrite (round2_comp _ (0.7 * SkillMatcher.overall_score r
                              + 0.3 * depth_of_count (total_matched r)));
        [reflexivity | ring].
  - apply round2_range.
    pose proof (depth_of_count_range (total_matched r)).
    case_decide; lra.
Qed.

(** ** The range of the factor scores, and what follows for the overall score *)

Lemma round2_le_cap (x : Q) (n : Z) :
  x <= inject_Z n / 100 -> round2 x <= inject_Z n / 100.
Proof.
  intros H. unfold round2.
  assert (Hn : (round_half_even (x * 100) <= n)%Z).
  { apply round_half_even_le.
    assert (E : inject_Z n / 100 * 100 == inject_Z n) by (field; discriminate).
    lra. }
  rewrite Zle_Qle in Hn.
  unfold Qdiv. apply Qmult_le_compat_r; [exact Hn | discriminate].
Qed.

Lemma round2_ge_cap (x : Q) (n : Z) :
  inject_Z n / 100 <= x -> inject_Z n / 100 <= round2 x.
Proof.
  intros H. unfold round2.
  assert (Hn : (n <= round_half_even (x * 100))%Z).
  { apply round_half_even_ge.
    assert (E : inject_Z n / 100 * 100 == inject_Z n) by (field; discriminate).
    lra. }
  rewrite Zle_Qle in Hn.
  unfold Qdiv. apply Qmult_le_compat_r; [exact Hn | discriminate].
Qed.

Lemma round2_le (x : Q) (n : Z) (c : Q) :
  c == inject_Z n / 100 -> x <= c -> round2 x <= c.
Proof. intros E H. rewrite E in *. apply round2_le_cap. exact H. Qed.

Lemma round2_ge (x : Q) (n : Z) (c : Q) :
  c == inject_Z n / 100 -> c <= x -> c <= round2 x.
Proof. intros E H. rewrite E in *. apply round2_ge_cap. exact H. Qed.

Lemma min_100_le (q : Q) : min_100 q <= 100.
Proof. unfold min_100. destruct (Qlt_le_dec 100 q); lra. Qed.

Lemma skills_total_upper (skill_analysis : value) :
  total_score (calculate_skills_score skill_analysis) <= 97.
Proof.
  rewrite calculate_skills_score_unfold.
  destruct skill_analysis as [| | | | | |d]; try (cbn; lra).
  cbv zeta. unfold py_min_100.
  destruct (as_number _) as [q|]; [|cbn; lra].
  cbn [mret result_ret]. fold (min_100 q).
  destruct (count_values _) as [e|n_exact]; [cbn; lra|].
  destruct (count_values _) as [e|n_missing]; [cbn; lra|].
  cbn [total_score skills_is_breakdown skills_total].
  apply (round2_le _ 9700); [reflexivity|].
  pose proof (min_100_le q).
  pose proof (depth_of_count_range n_exact).
  pose proof (relevance_of_counts_range n_exact n_missing).
  lra.
Qed.

(** A successful experience score lies between 58 and 84. *)
Lemma experience_total_success repr (experience_analysis resume_data : value) :
  let x := calculate_experience_score repr experience_analysis resume_data in
  (error x = None /\ 58 <= total_score x <= 84)
  \/ (error x <> None /\ total_score x = 0).
Proof.
  cbv zeta. rewrite calculate_experience_score_unfold.
  destruct resume_data as [| | | | | |d];
    try (right; split; [discriminate | reflexivity]).
  cbv zeta. destruct (total_years_of _) as [e|y];
    [right; split; [discriminate | reflexivity]|].
  left. split; [reflexivity|].
  cbn [total_score experience_is_breakdown experience_total].
  pose proof (score_of_years_range y).
  pose proof (Qnat_nonneg
                (count_in progression_indicators (text_of repr d "work_experience"))).
  pose proof (capped_range
                (50 + 10 * Qnat (count_in progression_indicators
                                   (text_of repr d "work_experience")))
                ltac:(lra)).
  assert (Hcap : 50 <= capped (50 + 10 * Qnat (count_in progression_indicators
                                   (text_of repr d "work_experience")))).
  { unfold capped. destruct (Qlt_le_dec 100 _); lra. }
  split.
  - apply (round2_ge _ 5800); [reflexivity | lra].
  - apply (round2_le _ 8400); [reflexivity | lra].
Qed.

Lemma education_total_upper repr (resume_data jd_data : value) :
  total_score (calculate_education_score repr resume_data jd_data) <= 96.
Proof.
  rewrite calculate_education_score_unfold.
  destruct resume_data as [| | | | | |d]; try (cbn; lra).
  destruct jd_data as [| | | | | |j]; try (cbn; lra).
  cbv zeta. cbn [total_score education_is_breakdown education_total].
  apply (round2_le _ 9600); [reflexivity|].
  pose proof (degree_match_range (text_of repr d "education")
                (text_of repr j "educational_requirements")).
  pose proof (field_relevance_range (text_of repr d "education")
                (text_of repr j "educational_requirements")).
  pose proof (Qnat_nonneg (count_in cert_indicators (text_of repr d "achievements"))).
  pose proof (capped_range
                (Qnat (count_in cert_indicators (text_of repr d "achievements")) * 20)
                ltac:(lra)).
  lra.
Qed.

(** X10: with the thresholds of [Config], an overall result computed from
    the three factor scores never recommends "Strong Hire": the skills
    total is at most 97, the experience total at most 84 and the education
    total at most 96, so the weighted sum is at most 83.55, below 85. *)
Theorem strong_hire_out_of_reach (repr : value -> string)
    (skill_analysis experience_analysis resume_data jd_data resume : value)
    (r : overall_result) :
  calculate_overall_score repr __init__
    (calculate_skills_score skill_analysis)
    (calculate_experience_score repr experience_analysis resume_data)
    (calculate_education_score repr resume_data jd_data)
    resume = inr r ->
  score (recommended r) <= 83.55
  /\ ScoringEngine.overall_score r <= 83.55
  /\ decision (recommended r) <> "Strong Hire".
Proof.
  intros Hr.
  pose proof (skills_total_upper skill_analysis) as Hs.
  pose proof (experience_total_success repr experience_analysis resume_data) as Hx.
  pose proof (education_total_upper repr resume_data jd_data) as Hu.
  cbv zeta in Hx.
  assert (Hx' : total_score
                  (calculate_experience_score repr experience_analysis resume_data)
                <= 84).
  { destruct Hx as [[_ H]|[_ H]]; [lra | rewrite H; lra]. }
  clear Hx.
  set (s := calculate_skills_score skill_analysis) in *.
  set (x := calculate_experience_score repr experience_analysis resume_data) in *.
  set (u := calculate_education_score repr resume_data jd_data) in *.
  unfold calculate_overall_score, _calculate_achievements_score in Hr.
  destruct resume as [| | | | | |d]; try discriminate Hr.
  rewrite lower_field_dict in Hr.
  unfold mbind, result_bind, mret, result_ret in Hr.
  injection Hr as <-.
  cbn [recommended ScoringEngine.overall_score score_weights __init__
       w_skills w_experience w_education w_achievements].
  pose proof (Qnat_nonneg
                (count_in achievement_indicators (text_of repr d "achievements"))).
  pose proof (capped_range
                (50 + 8 * Qnat (count_in achievement_indicators
                                  (text_of repr d "achievements")))
                ltac:(lra)) as Ha.
  fold (text_of repr d "achievements").
  set (a := capped (50 + 8 * Qnat (count_in achievement_indicators
                                     (text_of repr d "achievements")))) in *.
  assert (Hsum : total_score s * 0.35 + total_score x * 0.30
                 + total_score u * 0.15 + a * 0.10 <= 83.55) by lra.
  split; [|split].
  - unfold _generate_recommendation.
    repeat match goal with |- context [Qle_bool ?p ?q] => destruct (Qle_bool p q) end;
      exact Hsum.
  - apply (round2_le _ 8355); [reflexivity | exact Hsum].
  - unfold _generate_recommendation.
    cbn [strong_hire_threshold hire_threshold __init__].
    unfold Config.STRONG_HIRE_THRESHOLD.
    destruct (Qle_bool 85 _) eqn:E.
    + apply Qle_bool_iff in E. pose proof (Qle_trans _ _ _ E Hsum) as Habs.
      exfalso. revert Habs. vm_compute. intros Habs. apply Habs. reflexivity.
    + repeat match goal with |- context [Qle_bool ?p ?q] => destruct (Qle_bool p q) end;
        discriminate.
Qed.

Lemma strong_hire_out_of_reach_witness :
  exists r,
    calculate_overall_score (fun _ => "") __init__
      (calculate_skills_score (to_value example_analysis))
      (calculate_experience_score (fun _ => "") VNone (VDict example_resume))
      (calculate_education_score (fun _ => "") (VDict example_resume) example_jd)
      (VDict example_resume) = inr r
    /\ decision (recommended r) <> "Strong Hire".
Proof.
  eexists. split; [vm_compute; reflexivity|].
  eapply (strong_hire_out_of_reach (fun _ => "") (to_value example_analysis) VNone
            (VDict example_resume) example_jd (VDict example_resume)).
  vm_compute. reflexivity.
Defined.

(** ** Risks, strengths and the recommendation *)

Lemma Qlt_bool_iff (x y : Q) : Qlt_bool x y = true <-> x < y.
Proof.
  unfold Qlt_bool. rewrite negb_true_iff. apply Qle_bool_false.
Qed.

Lemma elem_of_if_singleton (b : bool) (x y : string) :
  x ∈ (if b then [y] else []) <-> b = true /\ x = y.
Proof.
  destruct b.
  - rewrite list_elem_of_singleton. intuition congruence.
  - split; [intros H; inversion H | intros [H _]; discriminate H].
Qed.

(** Decides whether a label is among three conditional ones. *)
Ltac label_iff :=
  let H := fresh "Hcond" in
  let E := fresh "Elabel" in
  split;
  [ intros [[H E]|[[H E]|[H E]]]; try discriminate E; exact H
  | intros H;
    first [ left; split; [exact H | reflexivity]
          | right; left; split; [exact H | reflexivity]
          | right; right; split; [exact H | reflexivity] ] ].

(** X11: each factor is reported as a risk, as a strength, or not at all,
    and never as both: the skills total below 60 is a risk and from 80 on a
    strength, the experience total below 50 and from 80 on, the education
    total below 40 and from 80 on; at most three risks and three strengths
    are reported. *)
Theorem risks_and_strengths_exclude_each_other
    (sk : skills_breakdown) (ex : experience_breakdown) (ed : education_breakdown) :
  let risks := _identify_risk_factors sk ex ed in
  let strengths := _identify_strengths sk ex ed in
  ("Significant technical skill gaps" ∈ risks <-> total_score sk < 60)
  /\ ("Limited relevant experience" ∈ risks <-> total_score ex < 50)
  /\ ("Educational background concerns" ∈ risks <-> total_score ed < 40)
  /\ ("Strong technical skills" ∈ strengths <-> 80 <= total_score sk)
  /\ ("Extensive relevant experience" ∈ strengths <-> 80 <= total_score ex)
  /\ ("Strong educational background" ∈ strengths <-> 80 <= total_score ed)
  /\ ~ ("Significant technical skill gaps" ∈ risks
        /\ "Strong technical skills" ∈ strengths)
  /\ ~ ("Limited relevant experience" ∈ risks
        /\ "Extensive relevant experience" ∈ strengths)
  /\ ~ ("Educational background concerns" ∈ risks
        /\ "Strong educational background" ∈ strengths)
  /\ (length risks <= 3)%nat /\ (length strengths <= 3)%nat.
Proof.
  cbv zeta.
  assert (R1 : "Significant technical skill gaps" ∈ _identify_risk_factors sk ex ed
               <-> total_score sk < 60).
  { unfold _identify_risk_factors.
    rewrite !elem_of_app, !elem_of_if_singleton, !Qlt_bool_iff. label_iff. }
  assert (R2 : "Limited relevant experience" ∈ _identify_risk_factors sk ex ed
               <-> total_score ex < 50).
  { unfold _identify_risk_factors.
    rewrite !elem_of_app, !elem_of_if_singleton, !Qlt_bool_iff. label_iff. }
  assert (R3 : "Educational background concerns" ∈ _identify_risk_factors sk ex ed
               <-> total_score ed < 40).
  { unfold _identify_risk_factors.
    rewrite !elem_of_app, !elem_of_if_singleton, !Qlt_bool_iff. label_iff. }
  assert (S1 : "Strong technical skills" ∈ _identify_strengths sk ex ed
               <-> 80 <= total_score sk).
  { unfold _identify_strengths.
    rewrite !elem_of_app, !elem_of_if_singleton, !Qle_bool_iff. label_iff. }
  assert (S2 : "Extensive relevant experience" ∈ _identify_strengths sk ex ed
               <-> 80 <= total_score ex).
  { unfold _identify_strengths.
    rewrite !elem_of_app, !elem_of_if_singleton, !Qle_bool_iff. label_iff. }
  assert (S3 : "Strong educational background" ∈ _identify_strengths sk ex ed
               <-> 80 <= total_score ed).
  { unfold _identify_strengths.
    rewrite !elem_of_app, !elem_of_if_singleton, !Qle_bool_iff. label_iff. }
  split; [exact R1|]. split; [exact R2|]. split; [exact R3|].
  split; [exact S1|]. split; [exact S2|]. split; [exact S3|].
  split; [rewrite R1, S1; lra|]. split; [rewrite R2, S2; lra|].
  split; [rewrite R3, S3; lra|].
  split.
  - unfold _identify_risk_factors. rewrite !length_app.
    destruct (Qlt_bool _ 60), (Qlt_bool _ 50), (Qlt_bool _ 40); cbn; lia.
  - unfold _identify_strengths. rewrite !length_app.
    destruct (Qle_bool 80 (total_score sk)), (Qle_bool 80 (total_score ex)),
      (Qle_bool 80 (total_score ed)); cbn; lia.
Qed.

(** The four decisions, from the worst to the best. *)
Definition decision_rank (d : string) : nat :=
  if String.eqb d "Strong Hire" then 3
  else if String.eqb d "Hire" then 2
  else if String.eqb d "Maybe" then 1
  else 0.

(** X12: whatever the two thresholds of the engine are, the decision is one
    of the four labels, the recommendation carries the score it was given,
    and a higher score never gets a worse decision. *)
Theorem recommendation_is_monotone (self : engine) (s s' : Q) :
  s <= s' ->
  (decision_rank (decision (_generate_recommendation self s))
   <= decision_rank (decision (_generate_recommendation self s')))%nat
  /\ decision (_generate_recommendation self s)
     ∈ ["Strong Hire"; "Hire"; "Maybe"; "Don't Hire"]
  /\ score (_generate_recommendation self s) = s.
Proof.
  intros Hle. unfold _generate_recommendation.
  destruct (Qle_bool (strong_hire_threshold self) s) eqn:A;
  destruct (Qle_bool (hire_threshold self) s) eqn:B;
  destruct (Qle_bool 50 s) eqn:C;
  destruct (Qle_bool (strong_hire_threshold self) s') eqn:A';
  destruct (Qle_bool (hire_threshold self) s') eqn:B';
  destruct (Qle_bool 50 s') eqn:C';
  cbn [decision score];
  (split; [|split; [set_solver | reflexivity]]);
  try (vm_compute; lia);
  exfalso;
  rewrite ?Qle_bool_iff, ?Qle_bool_false in *; lra.
Qed.

Lemma recommendation_is_monotone_witness :
  (decision_rank (decision (_generate_recommendation __init__ 55))
   <= decision_rank (decision (_generate_recommendation __init__ 72.5)))%nat.
Proof.
  apply (recommendation_is_monotone __init__ 55 72.5).
  vm_compute. discriminate.
Defined.

(** ** Failures of the overall score and of the experience score *)

(** X13: [calculate_overall_score] raises an [AttributeError] exactly when
    the resume data is not a dictionary, whatever the three breakdowns are;
    otherwise it returns a result that passes the three breakdowns and their
    totals on unchanged, and whose overall score is the score of the
    recommendation rounded to two decimals. *)
Theorem overall_score_fails_without_resume_dict (repr : value -> string)
    (self : engine) (sk : skills_breakdown) (ex : experience_breakdown)
    (ed : education_breakdown) (resume_data : value) :
  match resume_data with
  | VDict d =>
      exists r,
        calculate_overall_score repr self sk ex ed resume_data = inr r
        /\ skills_analysis r = sk /\ experience_analysis r = ex
        /\ education_analysis r = ed
        /\ c_skills (components r) = total_score sk
        /\ c_experience (components r) = total_score ex
        /\ c_education (components r) = total_score ed
        /\ 50 <= c_achievements (components r) <= 100
        /\ ScoringEngine.overall_score r = round2 (score (recommended r))
  | _ =>
      calculate_overall_score repr self sk ex ed resume_data
      = inl (AttributeError
               ("'" +:+ type_name resume_data +:+ "' object has no attribute 'get'"))
  end.
Proof.
  destruct resume_data as [| | | | | |d]; try reflexivity.
  unfold calculate_overall_score, _calculate_achievements_score.
  rewrite lower_field_dict. unfold mbind, result_bind, mret, result_ret.
  eexists. split; [reflexivity|].
  cbn [skills_analysis experience_analysis education_analysis components
       c_skills c_experience c_education c_achievements
       ScoringEngine.overall_score recommended].
  repeat (split; [reflexivity|]).
  split.
  - pose proof (Qnat_nonneg
                  (count_in achievement_indicators (text_of repr d "achievements"))).
    fold (text_of repr d "achievements").
    unfold capped. destruct (Qlt_le_dec 100 _); lra.
  - unfold _generate_recommendation.
    repeat match goal with |- context [Qle_bool ?p ?q] => destruct (Qle_bool p q) end;
      reflexivity.
Qed.

(** X14: the experience score either succeeds with a total between 58 and
    84, or fails with the total 0; so "Limited relevant experience" is
    reported as a risk exactly when the experience computation failed, and
    "Extensive relevant experience" is a strength only of a successful one. *)
Theorem experience_risk_means_failure (repr : value -> string)
    (experience_analysis resume_data : value)
    (sk : skills_breakdown) (ed : education_breakdown) :
  let x := calculate_experience_score repr experience_analysis resume_data in
  (error x = None -> 58 <= total_score x <= 84)
  /\ (error x <> None -> total_score x = 0)
  /\ ("Limited relevant experience" ∈ _identify_risk_factors sk x ed
      <-> error x <> None)
  /\ ("Extensive relevant experience" ∈ _identify_strengths sk x ed
      -> error x = None).
Proof.
  cbv zeta.
  pose proof (experience_total_success repr experience_analysis resume_data) as H.
  cbv zeta in H.
  set (x := calculate_experience_score repr experience_analysis resume_data) in *.
  assert (R : "Limited relevant experience" ∈ _identify_risk_factors sk x ed
              <-> total_score x < 50).
  { unfold _identify_risk_factors.
    rewrite !elem_of_app, !elem_of_if_singleton, !Qlt_bool_iff. label_iff. }
  assert (S : "Extensive relevant experience" ∈ _identify_strengths sk x ed
              <-> 80 <= total_score x).
  { unfold _identify_strengths.
    rewrite !elem_of_app, !elem_of_if_singleton, !Qle_bool_iff. label_iff. }
  destruct H as [[He Ht]|[He Ht]].
  - split; [intros _; exact Ht|]. split; [intros Hne; contradiction|].
    split; [|intros _; exact He].
    rewrite R. split; [intros Hlt; lra | intros Hne; contradiction].
  - split; [intros Hn; contradiction|]. split; [intros _; exact Ht|].
    split.
    + rewrite R, Ht. split; [intros _; exact He | intros _; reflexivity].
    + rewrite S, Ht. intros Hle. exfalso. revert Hle. vm_compute.
      intros Hle. apply Hle. reflexivity.
Qed.

Lemma experience_risk_means_failure_witness :
  58 <= total_score
          (calculate_experience_score (fun _ => "") VNone (VDict example_resume))
     <= 84.
Proof.
  apply (experience_risk_means_failure (fun _ => "") VNone (VDict example_resume)
           skills_init education_init).
  vm_compute. reflexivity.
Defined.

(** ** The degree match *)

(** X15: the degree match is 80 when the job text names no degree; a
    candidate whose education mentions a PhD never gets less than 80; and a
    text matched against itself gets 80 or 100. *)
Theorem degree_match_of_a_phd (education_text jd_education : text) :
  (first_degree jd_education = None ->
   _calculate_degree_match education_text jd_education = 80)
  /\ (contains (chars "phd") education_text = true ->
      80 <= _calculate_degree_match education_text jd_education)
  /\ 80 <= _calculate_degree_match education_text education_text.
Proof.
  split; [|split].
  - intros H. unfold _calculate_degree_match. rewrite H. reflexivity.
  - intros H. unfold _calculate_degree_match.
    assert (Hc : first_degree education_text = Some "phd").
    { unfold first_degree, degree_levels. cbn [List.find]. rewrite H. reflexivity. }
    rewrite Hc. destruct (first_degree jd_education) as [required|] eqn:R; [|lra].
    assert (Hreq : (degree_level required <= 4)%Z).
    { unfold first_degree in R. apply find_some in R. destruct R as [Hin _].
      unfold degree_levels in Hin. cbn in Hin.
      repeat (destruct Hin as [<-|Hin]; [vm_compute; discriminate|]).
      contradiction. }
    change (degree_level "phd") with 4%Z.
    destruct (degree_level required <=? 4)%Z eqn:L; [lra|].
    apply Z.leb_gt in L. lia.
  - unfold _calculate_degree_match.
    destruct (first_degree education_text) as [d|]; [|lra].
    rewrite Z.leb_refl. lra.
Qed.

Lemma degree_match_of_a_phd_witness :
  80 <= _calculate_degree_match (lower (chars "PhD in Physics"))
          (lower (chars "Master or Bachelor degree")).
Proof.
  apply (proj1 (proj2 (degree_match_of_a_phd (lower (chars "PhD in Physics"))
                         (lower (chars "Master or Bachelor degree"))))).
  vm_compute. reflexivity.
Defined.

(** ** When the skills score fails *)

(** The values [len] accepts. *)
Definition sized (v : value) : bool :=
  match v with
  | VStr _ | VList _ | VDict _ => true
  | _ => false
  end.

(** A dictionary all of whose values have a length. *)
Definition countable_dict (v : value) : bool :=
  match v with
  | VDict d => forallb sized (map snd d)
  | _ => false
  end.

Lemma sum_len_ok (vs : list value) :
  (exists n, sum_len vs = inr n) <-> forallb sized vs = true.
Proof.
  induction vs as [|v vs IH]; cbn [sum_len forallb].
  - split; [reflexivity | intros _; eexists; reflexivity].
  - unfold mbind, result_bind, mret, result_ret.
    rewrite andb_true_iff, <- IH. split.
    + intros [n H]. destruct v; cbn in H |- *; try discriminate H;
        (split; [reflexivity|]);
        destruct (sum_len vs) as [e|m]; try discriminate H; eexists; reflexivity.
    + intros [Hv [m Hm]]. rewrite Hm.
      destruct v; cbn in Hv |- *; try discriminate Hv; eexists; reflexivity.
Qed.

Lemma count_values_ok (v : value) :
  (exists n, count_values v = inr n) <-> countable_dict v = true.
Proof.
  unfold count_values, countable_dict, py_values.
  destruct v; cbn; try (split; [intros [n H]; discriminate H | discriminate]).
  apply sum_len_ok.
Qed.

(** X16: the skills score succeeds exactly on a dictionary whose
    [overall_score] (0 when absent) is a number and whose [exact_matches]
    and [missing_skills] (empty when absent) are dictionaries of strings,
    lists or dictionaries; a dictionary with none of the three keys gets the
    sub-scores 0, 40 and 50 and the total 27. *)
Theorem skills_score_succeeds_iff (skill_analysis : value) :
  (error (calculate_skills_score skill_analysis) = None
   <-> match skill_analysis with
       | VDict d =>
           is_Some (as_number (default (VInt 0) (assoc "overall_score" d)))
           /\ countable_dict (default (VDict []) (assoc "exact_matches" d)) = true
           /\ countable_dict (default (VDict []) (assoc "missing_skills" d)) = true
       | _ => False
       end)
  /\ (forall d,
        skill_analysis = VDict d ->
        assoc "overall_score" d = None ->
        assoc "exact_matches" d = None ->
        assoc "missing_skills" d = None ->
        let b := calculate_skills_score skill_analysis in
        error b = None /\ technical_skills b = 0 /\ skill_depth b = 40
        /\ skill_relevance b = 50 /\ total_score b == 27).
Proof.
  split.
  - rewrite calculate_skills_score_unfold.
    destruct skill_analysis as [| | | | | |d];
      try (cbn; split; [discriminate | contradiction]).
    cbv zeta. unfold py_min_100.
    destruct (as_number _) as [q|];
      [|cbn; split; [discriminate | intros [[? H] _]; discriminate H]].
    cbn [mret result_ret].
    rewrite <- !count_values_ok.
    destruct (count_values (default (VDict []) (assoc "exact_matches" d)))
      as [e|n_exact].
    { cbn. split; [discriminate | intros (_ & [n H] & _); discriminate H]. }
    destruct (count_values (default (VDict []) (assoc "missing_skills" d)))
      as [e|n_missing].
    { cbn. split; [discriminate | intros (_ & _ & [n H]); discriminate H]. }
    cbn. split; [|reflexivity].
    intros _. split; [eexists; reflexivity|].
    split; eexists; reflexivity.
  - intros d -> Ho He Hm. cbv zeta. rewrite calculate_skills_score_unfold.
    rewrite Ho, He, Hm. cbn. repeat split; reflexivity.
Qed.

Lemma skills_score_succeeds_iff_witness :
  let b := calculate_skills_score (VDict [("candidate", VStr "Jane")]) in
  error b = None /\ technical_skills b = 0 /\ skill_depth b = 40
  /\ skill_relevance b = 50 /\ total_score b == 27.
Proof.
  apply (proj2 (skills_score_succeeds_iff (VDict [("candidate", VStr "Jane")]))
           [("candidate", VStr "Jane")]); reflexivity.
Defined.

(** ** What the scan for years finds *)

Close Scope Q_scope.

Definition markless (p : regex) : bool :=
  forallb (fun n => match n with Open | Close => false | _ => true end) p.

(** The three patterns of [year_patterns], written out. *)
Definition pattern_years : regex :=
  [Open; One CDigit; Star CDigit; Close; Opt (CLit "+"); Star CSpace;
   One (CLit "y"); One (CLit "e"); One (CLit "a"); One (CLit "r");
   Opt (CLit "s")].

Definition pattern_range : regex :=
  [Open; One CDigit; One CDigit; One CDigit; One CDigit; Close;
   Star CSpace; One (CLit "-"); Star CSpace;
   Open; One CDigit; One CDigit; One CDigit; One CDigit; Close].

Definition pattern_present : regex :=
  [Open; One CDigit; One CDigit; One CDigit; One CDigit; Close;
   Star CSpace; One (CLit "-"); Star CSpace;
   One (CLit "p"); One (CLit "r"); One (CLit "e"); One (CLit "s");
   One (CLit "e"); One (CLit "n"); One (CLit "t")].

Lemma year_patterns_eq :
  year_patterns = [pattern_years; pattern_range; pattern_present].
Proof. reflexivity. Qed.

Lemma star_greedy_inv ok k pos prev s r :
  star_greedy ok k pos prev s = Some r ->
  exists n prev',
    Forall (fun a => ok a = true) (take n s)
    /\ k (pos + n) prev' (drop n s) = Some r.
Proof.
  revert pos prev. induction s as [|a s IH]; intros pos prev H; cbn in H.
  - exists 0, prev. rewrite Nat.add_0_r. split; [constructor | exact H].
  - destruct (ok a) eqn:Ha.
    + destruct (star_greedy ok k (S pos) (Some a) s) as [r'|] eqn:E.
      * injection H as ->. destruct (IH _ _ E) as (n & prev' & Hf & Hk).
        exists (S n), prev'. cbn. split; [constructor; assumption|].
        replace (pos + S n) with (S pos + n) by lia. exact Hk.
      * exists 0, prev. rewrite Nat.add_0_r. split; [constructor | exact H].
    + exists 0, prev. rewrite Nat.add_0_r. split; [constructor | exact H].
Qed.

Lemma markless_marks p marks pos prev s e ms :
  markless p = true ->
  match_here p marks pos prev s = Some (e, ms) ->
  ms = marks.
Proof.
  revert pos prev s. induction p as [|n p IH]; intros pos prev s Hm H.
  - cbn in H. congruence.
  - cbn in Hm. apply andb_prop in Hm. destruct Hm as [Hn Hp].
    destruct n as [k|k|k| | |]; try discriminate Hn; cbn [match_here] in H.
    + destruct s as [|a s]; [discriminate H|].
      destruct (cls k a); [|discriminate H]. eapply IH; eassumption.
    + destruct s as [|a s]; [eapply IH; eassumption|].
      destruct (cls k a); [|eapply IH; eassumption].
      destruct (match_here p marks (S pos) (Some a) s) as [[e' ms']|] eqn:E.
      * injection H as -> ->. eapply IH; eassumption.
      * eapply IH; eassumption.
    + apply star_greedy_inv in H. destruct H as (n & prev' & _ & H).
      eapply IH; eassumption.
    + destruct (at_boundary prev s); [|discriminate H]. eapply IH; eassumption.
Qed.

Lemma match_one_inv k p marks pos prev s r :
  match_here (One k :: p) marks pos prev s = Some r ->
  exists a s', s = a :: s' /\ cls k a = true
               /\ match_here p marks (S pos) (Some a) s' = Some r.
Proof.
  cbn [match_here]. destruct s as [|a s]; [discriminate|].
  destruct (cls k a) eqn:E; [|discriminate].
  intros H. exists a, s. tauto.
Qed.

(** Four digits, then the rest of the pattern. *)
Lemma match_four_digits_inv p marks pos prev s r :
  match_here (One CDigit :: One CDigit :: One CDigit :: One CDigit :: p)
    marks pos prev s = Some r ->
  exists a b c d s',
    s = a :: b :: c :: d :: s'
    /\ isdigit [a; b; c; d] = true
    /\ match_here p marks (pos + 4) (Some d) s' = Some r.
Proof.
  intros H.
  apply match_one_inv in H. destruct H as (a & s1 & -> & Ha & H).
  apply match_one_inv in H. destruct H as (b & s2 & -> & Hb & H).
  apply match_one_inv in H. destruct H as (c & s3 & -> & Hc & H).
  apply match_one_inv in H. destruct H as (d & s4 & -> & Hd & H).
  exists a, b, c, d, s4. split; [reflexivity|]. split.
  - cbn in *. rewrite Ha, Hb, Hc, Hd. reflexivity.
  - replace (pos + 4) with (S (S (S (S pos)))) by lia. exact H.
Qed.

Lemma slice_aligned (whole : text) (pos n : nat) (s : text) :
  drop pos whole = s -> slice whole pos (pos + n) = take n s.
Proof.
  intros <-. unfold slice. f_equal. lia.
Qed.

Lemma drop_aligned_cons (whole : text) (pos : nat) (a : ascii) (s : text) :
  drop pos whole = a :: s -> drop (S pos) whole = s.
Proof.
  intros H. replace (S pos) with (pos + 1) by lia.
  rewrite <- drop_drop, H. reflexivity.
Qed.

(** A property of the result of every match attempt holds for every item
    [findall] returns. *)
Lemma findall_Forall (P : found -> Prop) (p : regex) (whole : text) :
  (forall pos prev s r,
      drop pos whole = s ->
      match_here p [] pos prev s = Some r ->
      P (item_of whole pos r)) ->
  Forall P (findall p whole).
Proof.
  intros HP. unfold findall.
  assert (G : forall s skip pos prev,
             drop pos whole = s ->
             Forall P (findall_from p whole skip pos prev s)).
  { induction s as [|a s IH]; intros skip pos prev Hal.
    - destruct skip; cbn; [|constructor].
      destruct (match_here p [] pos prev []) eqn:E; [|constructor].
      constructor; [|constructor]. eapply HP; eassumption.
    - destruct skip; cbn.
      + destruct (match_here p [] pos prev (a :: s)) eqn:E.
        * constructor; [eapply HP; eassumption|].
          apply IH. eapply drop_aligned_cons. exact Hal.
        * apply IH. eapply drop_aligned_cons. exact Hal.
      + apply IH. eapply drop_aligned_cons. exact Hal. }
  apply G. reflexivity.
Qed.

(** The items the three patterns yield. *)
Definition years_item (m : found) : Prop :=
  exists ds, m = FStr ds /\ isdigit ds = true.

Definition range_item (m : found) : Prop :=
  exists g1 g2, m = FTuple [g1; g2] /\ isdigit g1 = true /\ isdigit g2 = true.

Definition present_item (m : found) : Prop :=
  exists ds, m = FStr ds /\ length ds = 4.

Lemma isdigit_cons_take a (n : nat) (s : text) :
  is_digit a = true ->
  Forall (fun c => is_digit c = true) (take n s) ->
  isdigit (a :: take n s) = true.
Proof.
  intros Ha Hs. unfold isdigit. cbn [forallb]. rewrite Ha. cbn.
  rewrite forallb_forall. intros c Hc. rewrite Forall_forall in Hs.
  apply Hs, list_elem_of_In. exact Hc.
Qed.

Lemma match_open p marks pos prev s :
  match_here (Open :: p) marks pos prev s = match_here p (pos :: marks) pos prev s.
Proof. reflexivity. Qed.

Lemma match_close p marks pos prev s :
  match_here (Close :: p) marks pos prev s = match_here p (pos :: marks) pos prev s.
Proof. reflexivity. Qed.

Lemma match_star k p marks pos prev s :
  match_here (Star k :: p) marks pos prev s
  = star_greedy (cls k) (match_here p marks) pos prev s.
Proof. reflexivity. Qed.

Lemma match_end marks pos prev s :
  match_here [] marks pos prev s = Some (pos, marks).
Proof. reflexivity. Qed.

Lemma pattern_years_items (t : text) :
  Forall years_item (findall pattern_years t).
Proof.
  apply findall_Forall. intros pos prev s [e ms] Hal H.
  unfold pattern_years in H. rewrite match_open in H.
  apply match_one_inv in H. destruct H as (a & s1 & -> & Ha & H).
  rewrite match_star in H. apply star_greedy_inv in H.
  destruct H as (n & prev' & Hds & H). rewrite match_close in H.
  apply markless_marks in H; [|reflexivity]. subst ms.
  unfold item_of. cbn [snd fst rev app groups_of].
  replace (S pos + n) with (pos + S n) by lia.
  rewrite (slice_aligned t pos (S n) _ Hal). cbn [take].
  eexists. split; [reflexivity|].
  apply isdigit_cons_take; assumption.
Qed.

Lemma pattern_present_items (t : text) :
  Forall present_item (findall pattern_present t).
Proof.
  apply findall_Forall. intros pos prev s [e ms] Hal H.
  unfold pattern_present in H. rewrite match_open in H.
  apply match_four_digits_inv in H.
  destruct H as (a & b & c & d & s' & -> & _ & H). rewrite match_close in H.
  apply markless_marks in H; [|reflexivity]. subst ms.
  unfold item_of. cbn [snd fst rev app groups_of].
  rewrite (slice_aligned t pos 4 _ Hal). cbn [take].
  eexists. split; reflexivity.
Qed.

Lemma pattern_range_items (t : text) :
  Forall range_item (findall pattern_range t).
Proof.
  apply findall_Forall. intros pos prev s [e ms] Hal H.
  unfold pattern_range in H. rewrite match_open in H.
  apply match_four_digits_inv in H.
  destruct H as (a & b & c & d & s1 & -> & Hd1 & H).
  rewrite match_close, match_star in H.
  apply star_greedy_inv in H. destruct H as (n1 & prev1 & _ & H).
  apply match_one_inv in H. destruct H as (dash & s2 & Hs2 & _ & H).
  rewrite match_star in H.
  apply star_greedy_inv in H. destruct H as (n2 & prev2 & _ & H).
  rewrite match_open in H.
  apply match_four_digits_inv in H.
  destruct H as (a' & b' & c' & d' & s3 & Hs3 & Hd2 & H).
  rewrite match_close, match_end in H.
  injection H as <- <-.
  unfold item_of. cbn [snd fst rev app groups_of].
  rewrite (slice_aligned t pos 4 _ Hal). cbn [take].
  assert (Hq : drop (S (pos + 4 + n1 + n2)) t = a' :: b' :: c' :: d' :: s3).
  { rewrite <- Hs3.
    replace (S (pos + 4 + n1 + n2)) with (pos + (4 + (n1 + (1 + n2)))) by lia.
    rewrite <- !drop_drop, Hal. cbn [drop]. rewrite drop_0, Hs2. reflexivity. }
  replace (S (pos + 4 + n1 + n2 + 4)) with (S (pos + 4 + n1 + n2) + 4) by lia.
  rewrite (slice_aligned t _ 4 _ Hq). simpl take.
  eexists _, _. split; [reflexivity|]. split; assumption.
Qed.

Lemma to_int_ok (s : text) : isdigit s = true -> exists z, to_int s = inr z.
Proof.
  intros H. unfold to_int, py_int. rewrite H. eexists. reflexivity.
Qed.

Lemma isdigit_pair (a b : ascii) :
  isdigit [a; b] = true -> isdigit [a] = true /\ isdigit [b] = true.
Proof.
  unfold isdigit. cbn. destruct (is_digit a), (is_digit b); cbn; intuition congruence.
Qed.

Lemma add_range_digits (total : Z) (g1 g2 : text) :
  isdigit g1 = true -> isdigit g2 = true ->
  exists z,
    (start_year ← to_int g1;
     end_year ← (if isdigit g2 then to_int g2 else mret 2024%Z);
     mret (total + (end_year - start_year))%Z) = inr z.
Proof.
  intros H1 H2. rewrite H2.
  destruct (to_int_ok g1 H1) as [z1 ->]. destruct (to_int_ok g2 H2) as [z2 ->].
  eexists. reflexivity.
Qed.

Lemma add_range_years (total : Z) (m : found) :
  years_item m -> exists z, add_range total m = inr z.
Proof.
  intros (ds & -> & Hd). unfold add_range.
  destruct ds as [|a [|b [|c ds]]]; cbn [found_pair];
    try (eexists; reflexivity).
  apply isdigit_pair in Hd. destruct Hd as [Ha Hb].
  apply add_range_digits; assumption.
Qed.

Lemma add_range_range (total : Z) (m : found) :
  range_item m -> exists z, add_range total m = inr z.
Proof.
  intros (g1 & g2 & -> & H1 & H2). unfold add_range. cbn [found_pair].
  apply add_range_digits; assumption.
Qed.

Lemma add_range_present (total : Z) (m : found) :
  present_item m -> add_range total m = inr total.
Proof.
  intros (ds & -> & Hl). unfold add_range.
  destruct ds as [|a [|b [|c ds]]]; cbn [found_pair]; try reflexivity.
  discriminate Hl.
Qed.

Lemma fold_result_ok {A B} (f : A -> B -> result A) (l : list B) (a : A) :
  (forall a b, b ∈ l -> exists a', f a b = inr a') ->
  exists a', fold_result f a l = inr a'.
Proof.
  revert a. induction l as [|b l IH]; intros a H; cbn [fold_result].
  - eexists. reflexivity.
  - destruct (H a b ltac:(left)) as [a' Ha]. unfold mbind, result_bind.
    rewrite Ha. apply IH. intros a0 b0 Hb0. apply H. right. exact Hb0.
Qed.

Lemma fold_result_same {A B} (f : A -> B -> result A) (l : list B) (a : A) :
  (forall a b, b ∈ l -> f a b = inr a) -> fold_result f a l = inr a.
Proof.
  intros H. induction l as [|b l IH]; cbn [fold_result]; [reflexivity|].
  unfold mbind, result_bind. rewrite (H a b) by left.
  apply IH. intros a0 b0 Hb0. apply H. right. exact Hb0.
Qed.

Lemma scan_years (t : text) (total : Z) :
  exists z, scan_pattern t total pattern_years = inr z.
Proof.
  unfold scan_pattern. pose proof (pattern_years_items t) as H.
  destruct (findall pattern_years t) as [|first rest] eqn:E.
  - eexists. reflexivity.
  - destruct (found_len first =? 1).
    + apply Forall_cons in H. destruct H as [(ds & -> & Hd) _].
      cbn [int_of_found]. destruct (to_int_ok ds Hd) as [z Hz].
      unfold mbind, result_bind. rewrite Hz. eexists. reflexivity.
    + apply fold_result_ok. intros a b Hb. apply add_range_years.
      rewrite Forall_forall in H. apply H. exact Hb.
Qed.

Lemma scan_range (t : text) (total : Z) :
  exists z, scan_pattern t total pattern_range = inr z.
Proof.
  unfold scan_pattern. pose proof (pattern_range_items t) as H.
  destruct (findall pattern_range t) as [|first rest] eqn:E.
  - eexists. reflexivity.
  - assert (Hlen : (found_len first =? 1) = false).
    { apply Forall_cons in H. destruct H as [(g1 & g2 & -> & _) _]. reflexivity. }
    rewrite Hlen. apply fold_result_ok. intros a b Hb. apply add_range_range.
    rewrite Forall_forall in H. apply H. exact Hb.
Qed.

Lemma scan_present (t : text) (total : Z) :
  scan_pattern t total pattern_present = inr total.
Proof.
  unfold scan_pattern. pose proof (pattern_present_items t) as H.
  destruct (findall pattern_present t) as [|first rest] eqn:E; [reflexivity|].
  assert (Hlen : (found_len first =? 1) = false).
  { apply Forall_cons in H. destruct H as [(ds & -> & Hl) _]. cbn. rewrite Hl.
    reflexivity. }
  rewrite Hlen. apply fold_result_same. intros a b Hb. apply add_range_present.
  rewrite Forall_forall in H. apply H. exact Hb.
Qed.

Lemma total_years_of_ok (t : text) :
  exists z,
    total_years_of t = inr z
    /\ fold_result (scan_pattern t) 0%Z [pattern_years; pattern_range] = inr z.
Proof.
  unfold total_years_of. rewrite year_patterns_eq. cbn [fold_result].
  unfold mbind, result_bind.
  destruct (scan_years t 0) as [z1 ->]. destruct (scan_range t z1) as [z2 ->].
  rewrite scan_present. exists z2. split; reflexivity.
Qed.

(** X17: for every work history the scan for years ends without an
    exception (every string handed to [int] consists of digits); and the
    third pattern, "<year> - present", never changes the total: its matches
    are four-character strings, which the loop passes over, so that the
    years are those of the first two patterns alone. *)
Theorem years_scan_ignores_present (t : text) :
  (exists z,
     total_years_of t = inr z
     /\ fold_result (scan_pattern t) 0%Z [pattern_years; pattern_range] = inr z)
  /\ (forall total, scan_pattern t total pattern_present = inr total)
  /\ year_patterns = [pattern_years; pattern_range; pattern_present].
Proof.
  split; [apply total_years_of_ok|]. split; [|reflexivity].
  intros total. apply scan_present.
Qed.

(** X18: the experience score fails exactly when the resume data is not a
    dictionary, and the education score exactly when the resume data or the
    job data is not one; on dictionaries every sub-score lies in the range
    the code gives it.  The experience analysis is never looked at. *)
Theorem factor_scores_fail_iff_no_dict (repr : value -> string)
    (experience_analysis experience_analysis' resume_data jd_data : value) :
  let x := calculate_experience_score repr experience_analysis resume_data in
  let u := calculate_education_score repr resume_data jd_data in
  (error x = None <-> is_dict resume_data = true)
  /\ (error u = None <-> is_dict resume_data = true /\ is_dict jd_data = true)
  /\ calculate_experience_score repr experience_analysis' resume_data = x
  /\ (error x = None ->
      role_relevance x = 75%Q /\ industry_match x = 70%Q
      /\ (30 <= years_of_experience x <= 100)%Q
      /\ (50 <= career_progression x <= 100)%Q)
  /\ (error u = None ->
      institution_quality u = 0%Q
      /\ (30 <= degree_match u <= 100)%Q
      /\ (50 <= field_relevance u <= 90)%Q
      /\ (0 <= certifications u <= 100)%Q).
Proof.
  cbv zeta.
  rewrite !calculate_experience_score_unfold, calculate_education_score_unfold.
  destruct resume_data as [| | | | | |d];
    try (cbn; repeat split; try discriminate; try reflexivity;
         intros [H _]; discriminate H).
  cbv zeta.
  destruct (total_years_of_ok (text_of repr d "work_experience")) as (z & -> & _).
  split; [cbn; split; reflexivity|]. split.
  { destruct jd_data; cbn; split; try discriminate; try reflexivity;
      try (intros [_ H]; discriminate H). intros _. split; reflexivity. }
  split; [reflexivity|]. split.
  - intros _. cbn [role_relevance industry_match years_of_experience
                   career_progression].
    split; [reflexivity|]. split; [reflexivity|].
    split; [apply score_of_years_range|].
    pose proof (Qnat_nonneg
                  (count_in progression_indicators (text_of repr d "work_experience"))).
    unfold capped. destruct (Qlt_le_dec 100 _); lra.
  - destruct jd_data as [| | | | | |j]; try (cbn; discriminate).
    intros _. cbv zeta. cbn [institution_quality degree_match field_relevance
                              certifications].
    split; [reflexivity|]. split; [apply degree_match_range|].
    split; [apply field_relevance_range|].
    pose proof (Qnat_nonneg (count_in cert_indicators (text_of repr d "achievements"))).
    apply capped_range. lra.
Qed.

Lemma factor_scores_fail_iff_no_dict_witness :
  role_relevance
    (calculate_experience_score (fun _ => "") VNone (VDict example_resume)) = 75%Q.
Proof.
  apply (proj1 (proj2 (proj2 (proj2
    (factor_scores_fail_iff_no_dict (fun _ => "") VNone VNone
       (VDict example_resume) example_jd))))).
  vm_compute. reflexivity.
Defined.
